(** * Sewing-pattern cataloger: the OCR field extractor and the form pre-fill

    A shallow embedding of [src/utils/ocrProcessor.ts] (the heuristic field
    extractor and its confidence score) and of the OCR pre-fill step of
    [src/components/AddPatternDialog.tsx].

    - A JavaScript string is the list of its UTF-16 code units ([N]).
    - A JavaScript number is an IEEE-754 binary64 value ([PrimFloat.float]).
    - A regular expression is a small syntax tree, run by a backtracking
      matcher that follows the continuation-passing matcher of the
      ECMAScript specification (ordered alternation, greedy and lazy
      quantifiers, [\b] and [^] assertions).
    - React state is modelled by the value a closure captured at render time
      and the value the state store holds when an updater runs. *)

From Stdlib Require Import PrimFloat Bool Arith NArith Lia String Ascii List.
Import ListNotations.
Set Warnings "-inexact-float".

(** ** Code units and strings *)

Definition char := N.
Bind Scope N_scope with char.
Definition jsstring := list char.

(** An ASCII literal of the source, as a list of code units. *)
Definition str (s : string) : jsstring :=
  map N_of_ascii (list_ascii_of_string s).

Definition char_eqb (a b : char) : bool := N.eqb a b.

Definition in_range (lo hi c : char) : bool :=
  (N.leb lo c && N.leb c hi)%bool.

Definition isDigit (c : char) : bool := in_range 48 57 c.
Definition isUpper (c : char) : bool := in_range 65 90 c.
Definition isLower (c : char) : bool := in_range 97 122 c.
Definition isLetter (c : char) : bool := isUpper c || isLower c.

(** [\w]: the 63 basic word characters. *)
Definition isWordChar (c : char) : bool :=
  isLetter c || isDigit c || char_eqb c 95.

(** LineTerminator: LF, CR, LS, PS. *)
Definition isLineTerminator (c : char) : bool :=
  char_eqb c 10 || char_eqb c 13 || char_eqb c 8232 || char_eqb c 8233.

(** [\s] and [trim]: WhiteSpace and LineTerminator code points. *)
Definition isSpace (c : char) : bool :=
  in_range 9 13 c || char_eqb c 32 || char_eqb c 160 || char_eqb c 5760
  || in_range 8192 8202 c || char_eqb c 8232 || char_eqb c 8233
  || char_eqb c 8239 || char_eqb c 8287 || char_eqb c 12288
  || char_eqb c 65279.

Definition upperChar (c : char) : char := if isLower c then (c - 32)%N else c.
Definition lowerChar (c : char) : char := if isUpper c then (c + 32)%N else c.

(** [String.prototype.toUpperCase].  The source applies it to pattern
    numbers only, which are ASCII; code units outside ASCII are left as
    they are. *)
Definition toUpperCase (s : jsstring) : jsstring := map upperChar s.

(** [String.prototype.toLowerCase].  Outside ASCII, two code points have a
    lower case that contains an ASCII letter: the Kelvin sign (U+212A, [k])
    and the dotted capital I (U+0130, [i] followed by U+0307).  The source
    only compares lower-cased text with ASCII words, so the other code
    units, whose lower case stays outside ASCII, are left as they are. *)
Definition lowerUnit (c : char) : jsstring :=
  if char_eqb c 8490 then [107%N]
  else if char_eqb c 304 then [105%N; 775%N]
  else [lowerChar c].

Definition toLowerCase (s : jsstring) : jsstring := flat_map lowerUnit s.

Fixpoint str_eqb (a b : jsstring) : bool :=
  match a, b with
  | [], [] => true
  | x :: a', y :: b' => char_eqb x y && str_eqb a' b'
  | _, _ => false
  end.

Fixpoint isPrefix (p s : jsstring) : bool :=
  match p, s with
  | [], _ => true
  | x :: p', y :: s' => char_eqb x y && isPrefix p' s'
  | _ :: _, [] => false
  end.

(** [String.prototype.includes]. *)
Fixpoint includes (s sub : jsstring) : bool :=
  isPrefix sub s ||
  match s with
  | [] => false
  | _ :: s' => includes s' sub
  end.

(** [Array.prototype.includes] on an array of strings. *)
Definition arr_includes (l : list jsstring) (w : jsstring) : bool :=
  existsb (str_eqb w) l.

Fixpoint trimStart (s : jsstring) : jsstring :=
  match s with
  | [] => []
  | c :: s' => if isSpace c then trimStart s' else s
  end.

(** [String.prototype.trim]. *)
Definition trim (s : jsstring) : jsstring :=
  rev (trimStart (rev (trimStart s))).

Definition substring (s : jsstring) (i j : nat) : jsstring :=
  firstn (j - i) (skipn i s).

(** [Array.prototype.join]. *)
Fixpoint join (sep : jsstring) (l : list jsstring) : jsstring :=
  match l with
  | [] => []
  | [x] => x
  | x :: l' => x ++ sep ++ join sep l'
  end.

(** Truthiness of a [string | undefined] value: a non-empty string. *)
Definition truthy (v : option jsstring) : bool :=
  match v with
  | Some (_ :: _) => true
  | _ => false
  end.

(** ** Regular expressions *)

Inductive regex : Type :=
| Eps                                   (* the empty pattern *)
| Chr (p : char -> bool)                (* one code unit: literal or class *)
| Seq (r1 r2 : regex)
| Alt (r1 r2 : regex)                   (* r1|r2, r1 tried first *)
| Rep (greedy : bool) (lo : nat) (hi : option nat) (r : regex)
| WordB                                 (* \b *)
| Bol.                                  (* ^ under the m flag *)

Definition orElse (a b : option nat) : option nat :=
  match a with
  | Some z => Some z
  | None => b
  end.

Module Matcher.
Section WithInput.

Variable input : jsstring.

Definition charAt (i : nat) : option char := nth_error input i.

Definition isWordAt (i : nat) : bool :=
  match charAt i with
  | Some c => isWordChar c
  | None => false
  end.

(** IsWordChar(e - 1) differs from IsWordChar(e). *)
Definition wordBoundary (e : nat) : bool :=
  xorb (match e with 0 => false | S e' => isWordAt e' end) (isWordAt e).

Definition lineStart (e : nat) : bool :=
  match e with
  | 0 => true
  | S e' => match charAt e' with
            | Some c => isLineTerminator c
            | None => false
            end
  end.

(** RepeatMatcher.  [n] counts the iterations still allowed.  An iteration
    that consumes nothing once [lo] is exhausted is rejected, as ECMAScript
    has it. *)
Fixpoint repeatMatcher (m : nat -> (nat -> option nat) -> option nat)
    (greedy : bool) (n lo : nat) (x : nat) (c : nat -> option nat)
    {struct n} : option nat :=
  match n with
  | 0 => c x
  | S n' =>
      let d := fun y =>
        if (Nat.eqb lo 0 && Nat.eqb y x)%bool then None
        else repeatMatcher m greedy n' (Nat.pred lo) y c in
      if negb (Nat.eqb lo 0) then m x d
      else if greedy then orElse (m x d) (c x)
      else orElse (c x) (m x d)
  end.

(** The number of iterations allowed from position [x]: the upper bound
    of the quantifier (never below [lo] in a pattern that parses), or,
    for an unbounded quantifier, [lo] plus the number of code units left,
    which no run can exceed since every iteration beyond [lo] consumes at
    least one code unit.  [slack] grants further iterations; the matcher
    runs with none, and [matcherWith_slack] below shows that granting more
    changes no result. *)
Definition iterations (slack lo : nat) (hi : option nat) (x : nat) : nat :=
  match hi with
  | Some h => h
  | None => lo + (List.length input - x) + slack
  end.

(** The matcher of a pattern: [matcher r x c] runs [r] from position [x]
    and hands every end position, in priority order, to the continuation
    [c] until [c] accepts one. *)
Fixpoint matcherWith (slack : nat) (r : regex) (x : nat)
    (c : nat -> option nat) {struct r} : option nat :=
  match r with
  | Eps => c x
  | Chr p =>
      match charAt x with
      | Some ch => if p ch then c (S x) else None
      | None => None
      end
  | Seq r1 r2 => matcherWith slack r1 x (fun y => matcherWith slack r2 y c)
  | Alt r1 r2 => orElse (matcherWith slack r1 x c) (matcherWith slack r2 x c)
  | Rep greedy lo hi r1 =>
      repeatMatcher (matcherWith slack r1) greedy (iterations slack lo hi x)
        lo x c
  | WordB => if wordBoundary x then c x else None
  | Bol => if lineStart x then c x else None
  end.

Definition matcher : regex -> nat -> (nat -> option nat) -> option nat :=
  matcherWith 0.

(** One attempt at position [i]: the end of the match, if any. *)
Definition matchAt (r : regex) (i : nat) : option nat :=
  matcher r i Some.

(** The leftmost match starting at one of the [n] positions from [i]. *)
Fixpoint searchFrom (r : regex) (n i : nat) : option (nat * nat) :=
  match n with
  | 0 => None
  | S n' =>
      match matchAt r i with
      | Some e => Some (i, e)
      | None => searchFrom r n' (S i)
      end
  end.

Definition search (r : regex) : option (nat * nat) :=
  searchFrom r (S (List.length input)) 0.

Definition unitAt (i : nat) : jsstring :=
  match charAt i with
  | Some ch => [ch]
  | None => []
  end.

(** [replace] with a global pattern: [n] positions are left to visit from
    [i]; positions before [skip] lie inside the previous match.  After an
    empty match the scan resumes one code unit further. *)
Fixpoint replaceFrom (r : regex) (by_ : jsstring) (n i skip : nat)
    : jsstring :=
  match n with
  | 0 => []
  | S n' =>
      if Nat.ltb i skip then replaceFrom r by_ n' (S i) skip
      else
        match matchAt r i with
        | Some e =>
            by_ ++ (if Nat.eqb e i then unitAt i else [])
                ++ replaceFrom r by_ n' (S i) e
        | None => unitAt i ++ replaceFrom r by_ n' (S i) skip
        end
  end.

(** [split] with a pattern: [p] is the start of the current piece, [q]
    the position tried; an empty match at [p] does not split. *)
Fixpoint splitFrom (r : regex) (n q p : nat) : list jsstring :=
  match n with
  | 0 => [substring input p (List.length input)]
  | S n' =>
      if Nat.ltb q p then splitFrom r n' (S q) p
      else
        match matchAt r q with
        | Some e =>
            let e := Nat.min e (List.length input) in
            if Nat.eqb e p then splitFrom r n' (S q) p
            else substring input p q :: splitFrom r n' (S q) e
        | None => splitFrom r n' (S q) p
        end
  end.

End WithInput.
End Matcher.

(** [text.match(r)] with a global pattern yields all matches or [null];
    the source reads only [matches[0]]. *)
Definition firstMatch (r : regex) (s : jsstring) : option jsstring :=
  match Matcher.search s r with
  | Some (i, e) => Some (substring s i e)
  | None => None
  end.

(** [r.test(text)] on a fresh pattern object. *)
Definition test (r : regex) (s : jsstring) : bool :=
  match Matcher.search s r with
  | Some _ => true
  | None => false
  end.

(** [s.replace(r, by_)] with a global pattern. *)
Definition replaceAll (r : regex) (by_ : jsstring) (s : jsstring) : jsstring :=
  Matcher.replaceFrom s r by_ (S (List.length s)) 0 0.

(** [s.split(r)]. *)
Definition split (r : regex) (s : jsstring) : list jsstring :=
  match s with
  | [] => match Matcher.matchAt s r 0 with
          | Some _ => []
          | None => [[]]
          end
  | _ => Matcher.splitFrom s r (List.length s) 0 0
  end.

(** ** Pattern syntax used by the source *)

Definition seq (rs : list regex) : regex := fold_right Seq Eps rs.
Definition alt (r : regex) (rs : list regex) : regex := fold_left Alt rs r.

Definition opt (r : regex) : regex := Rep true 0 (Some 1) r.
Definition star (r : regex) : regex := Rep true 0 None r.
Definition plus (r : regex) : regex := Rep true 1 None r.
Definition lazyStar (r : regex) : regex := Rep false 0 None r.
Definition times (lo hi : nat) (r : regex) : regex := Rep true lo (Some hi) r.

(** A character set under the [i] flag: a code unit is in the set when its
    canonical form is that of a member.  Canonicalize maps an ASCII letter
    to its upper case and never maps a code unit outside ASCII into ASCII. *)
Definition ci (p : char -> bool) : char -> bool :=
  fun x => p (upperChar x) || p (lowerChar x).

Definition oneOf (cs : jsstring) : char -> bool :=
  fun x => existsb (char_eqb x) cs.

Definition lit (c : char) : regex := Chr (char_eqb c).
Definition litI (c : char) : regex := Chr (ci (char_eqb c)).

(** A run of literal characters under the [i] flag. *)
Definition wordI (s : jsstring) : regex := seq (map litI s).

(** [\s], [\d], [\w] and their sets are closed under case mapping, so
    they read the same with and without the [i] flag. *)
Definition sp : regex := Chr isSpace.
Definition digit : regex := Chr isDigit.
Definition colon : regex := lit 58.

(** [.]: any code unit but a line terminator. *)
Definition dot : regex := Chr (fun x => negb (isLineTerminator x)).

(** The set written [[^\\n\\r]] in the regular-expression literals of the
    source: in a literal, the two characters backslash-backslash denote one
    backslash, so the set excluded is backslash, [n] and [r]. *)
Definition notBackslashNR : char -> bool :=
  fun x => negb (oneOf [92; 110; 92; 114]%N x).
Definition notBackslashNR_i : char -> bool :=
  fun x => negb (ci (oneOf [92; 110; 92; 114]%N) x).

(** ** Reference data *)

Definition PATTERN_COMPANIES : list jsstring :=
  map str
    [ "Simplicity"; "McCall's"; "Butterick"; "Vogue"; "Burda"; "New Look";
      "Kwik Sew"; "Patterns for Pirates"; "Closet Core"; "Cashmerette";
      "True Bias"; "Grainline Studio"; "Deer & Doe"; "Named Clothing";
      "Papercut Patterns"; "Sew House Seven"; "Helen's Closet";
      "Mood Fabrics" ]%string.

Definition FABRIC_TYPES : list jsstring :=
  map str
    [ "Cotton"; "Linen"; "Silk"; "Wool"; "Polyester"; "Rayon"; "Viscose";
      "Jersey"; "Knit"; "Woven"; "Stretch"; "Denim"; "Chiffon"; "Satin";
      "Velvet"; "Fleece"; "Canvas"; "Twill"; "Crepe"; "Georgette" ]%string.

(** [[XS|S|M|L|XL|XXL|\d\-\s]] is a character set: the letters X, S, M, L,
    the bar, digits, the hyphen and white space. *)
Definition sizeSet : char -> bool :=
  fun x => oneOf (str "XS|S|M|L|XL|XXL|") x || isDigit x || char_eqb x 45
           || isSpace x.

(** [[-\u2013]]: hyphen or en dash. *)
Definition dash : regex := Chr (oneOf [45; 8211]%N).

Definition SIZE_PATTERNS : list regex :=
  [ seq [WordB;
         alt (wordI (str "XS"))
             [wordI (str "S"); wordI (str "M"); wordI (str "L");
              wordI (str "XL"); wordI (str "XXL")];
         WordB];
    seq [WordB; times 1 2 digit; dash; times 1 2 digit; WordB];
    seq [WordB; times 1 2 digit; star sp; dash; star sp; times 1 2 digit;
         WordB];
    seq [WordB; wordI (str "Size"); opt (litI 115); star sp; opt colon;
         star sp; plus (Chr (ci sizeSet))] ].

Definition DIFFICULTY_PATTERNS : list regex :=
  [ seq [WordB;
         alt (wordI (str "Beginner"))
             [wordI (str "Easy"); wordI (str "Intermediate");
              wordI (str "Advanced"); wordI (str "Expert")];
         WordB];
    seq [WordB; seq [wordI (str "Level"); star sp; Chr (in_range 49 52)];
         WordB];
    seq [WordB; seq [wordI (str "Skill"); star sp; wordI (str "Level")];
         star sp; opt colon; star sp; plus (Chr isWordChar)] ].

(** [/\s+/g] *)
Definition whitespaceRun : regex := plus sp.

(** The loop shared by the extractors:
    [for (const pattern of patterns) { ... if (ok) return v }]
    [return undefined]. *)
Fixpoint firstAccepted {A : Type} (attempt : regex -> option A)
    (patterns : list regex) : option A :=
  match patterns with
  | [] => None
  | pattern :: rest =>
      match attempt pattern with
      | Some v => Some v
      | None => firstAccepted attempt rest
      end
  end.

Definition lengthBetween (lo hi : nat) (s : jsstring) : bool :=
  Nat.leb lo (List.length s) && Nat.leb (List.length s) hi.

(** ** The field extractor *)

Record ExtractedData : Type := mkData {
  company : option jsstring;
  patternNumber : option jsstring;
  patternName : option jsstring;
  sizeRange : option jsstring;
  fabricType : option jsstring;
  difficulty : option jsstring
}.

Record OCRResult : Type := mkResult {
  text : jsstring;
  confidence : float;
  extractedData : ExtractedData
}.

(** The pattern built for a catalog company: the name between two [\b],
    every run of white space in it replaced by [\s+], flags [gi].  (The
    apostrophe is escaped in the source, which leaves it a literal; no
    catalog name holds any other special character.) *)
Fixpoint companyBody (name : jsstring) (inSpace : bool) : list regex :=
  match name with
  | [] => []
  | c :: rest =>
      if isSpace c
      then (if inSpace then [] else [plus sp]) ++ companyBody rest true
      else litI c :: companyBody rest false
  end.

Definition companyRegex (name : jsstring) : regex :=
  seq ([WordB] ++ companyBody name false ++ [WordB]).

(** [new RegExp(`\\b${name}\\b`, 'gi')]: the name taken as it is. *)
Definition standaloneRegex (name : jsstring) : regex :=
  seq [WordB; wordI name; WordB].

Definition companyWords (s : jsstring) : list jsstring :=
  split whitespaceRun (toLowerCase s).

Definition sharesWord (words : list jsstring) (name : jsstring) : bool :=
  existsb (fun w => arr_includes words w) (companyWords name).

Definition extractCompany (text : jsstring) : option jsstring :=
  match find (fun name => test (companyRegex name) text) PATTERN_COMPANIES with
  | Some name => Some name
  | None =>
      let words := companyWords text in
      find (sharesWord words) PATTERN_COMPANIES
  end.

Definition numberPatterns : list regex :=
  [ seq [WordB; opt (Chr isUpper); times 4 5 digit; WordB];
    seq [WordB; times 3 4 digit; opt (Chr isUpper); WordB];
    seq [wordI (str "Pattern"); star sp; opt (lit 35); star sp; opt colon;
         star sp; opt (Chr (ci isUpper)); times 3 5 digit;
         opt (Chr (ci isUpper))];
    seq [wordI (str "No"); opt (lit 46); star sp; opt colon; star sp;
         opt (Chr (ci isUpper)); times 3 5 digit; opt (Chr (ci isUpper))] ].

(** [/Pattern\s*#?\s*:?\s*/gi] and [/No\.?\s*:?\s*/gi] *)
Definition patternLabel : regex :=
  seq [wordI (str "Pattern"); star sp; opt (lit 35); star sp; opt colon;
       star sp].
Definition noLabel : regex :=
  seq [wordI (str "No"); opt (lit 46); star sp; opt colon; star sp].

Definition stripNumberLabels (m : jsstring) : jsstring :=
  replaceAll noLabel [] (replaceAll patternLabel [] m).

Definition numberAttempt (text : jsstring) (pattern : regex)
    : option jsstring :=
  match firstMatch pattern text with
  | Some m0 =>
      let m := stripNumberLabels m0 in
      if lengthBetween 3 6 m then Some (toUpperCase m) else None
  | None => None
  end.

Definition extractPatternNumber (text : jsstring) : option jsstring :=
  firstAccepted (numberAttempt text) numberPatterns.

Definition namePatterns : list regex :=
  [ seq [Alt (wordI (str "Pattern")) (wordI (str "Design")); star sp;
         opt colon; star sp; Chr (ci isUpper);
         times 10 50 (Chr notBackslashNR_i)];
    seq [Bol; Chr isUpper; times 10 50 (Chr notBackslashNR)] ].

(** [/(?:Pattern|Design)\s*:?\s*/gi] *)
Definition nameLabel : regex :=
  seq [Alt (wordI (str "Pattern")) (wordI (str "Design")); star sp;
       opt colon; star sp].

(** [/\b(?:Misses|Women|Men|Children|Kids|Girls|Boys)\b/gi] *)
Definition qualifiers : regex :=
  seq [WordB;
       alt (wordI (str "Misses"))
           [wordI (str "Women"); wordI (str "Men"); wordI (str "Children");
            wordI (str "Kids"); wordI (str "Girls"); wordI (str "Boys")];
       WordB].

Definition cleanName (company : option jsstring) (m0 : jsstring) : jsstring :=
  let name := trim (replaceAll nameLabel [] m0) in
  let name := trim (replaceAll qualifiers [] name) in
  if truthy company
  then match company with
       | Some c => trim (replaceAll (standaloneRegex c) [] name)
       | None => name
       end
  else name.

Definition nameAttempt (text : jsstring) (company : option jsstring)
    (pattern : regex) : option jsstring :=
  match firstMatch pattern text with
  | Some m0 =>
      let name := cleanName company m0 in
      if lengthBetween 5 50 name then Some name else None
  | None => None
  end.

Definition extractPatternName (text : jsstring) (company : option jsstring)
    : option jsstring :=
  firstAccepted (nameAttempt text company) namePatterns.

(** [/Size[s]?\s*:?\s*/gi] *)
Definition sizeLabel : regex :=
  seq [wordI (str "Size"); opt (litI 115); star sp; opt colon; star sp].

Definition sizeAttempt (text : jsstring) (pattern : regex) : option jsstring :=
  match firstMatch pattern text with
  | Some m0 =>
      let size := trim (replaceAll sizeLabel [] m0) in
      if lengthBetween 1 20 size then Some size else None
  | None => None
  end.

Definition extractSizeRange (text : jsstring) : option jsstring :=
  firstAccepted (sizeAttempt text) SIZE_PATTERNS.

Definition fabricLabel : list regex :=
  [wordI (str "Fabric"); opt (litI 115); star sp; opt colon; star sp;
   times 5 30 (Chr notBackslashNR_i)].

Definition fabricKeywords : list regex :=
  [ seq fabricLabel;
    seq ([wordI (str "Suggested"); star sp] ++ fabricLabel);
    seq ([wordI (str "Recommended"); star sp] ++ fabricLabel) ].

(** [/.*?:\s*/gi] *)
Definition upToColon : regex := seq [lazyStar dot; colon; star sp].

Definition catalogHits (text : jsstring) : list jsstring :=
  filter (fun fabric => test (standaloneRegex fabric) text) FABRIC_TYPES.

Definition keywordHits (text : jsstring) : list jsstring :=
  flat_map
    (fun pattern =>
       match firstMatch pattern text with
       | Some m0 => [trim (replaceAll upToColon [] m0)]
       | None => []
       end)
    fabricKeywords.

Definition extractFabricType (text : jsstring) : option jsstring :=
  let foundFabrics := catalogHits text ++ keywordHits text in
  if Nat.ltb 0 (List.length foundFabrics)
  then Some (join (str ", ") (firstn 3 foundFabrics))
  else None.

Definition normalizeDifficulty (difficulty : jsstring) : option jsstring :=
  let lower := toLowerCase difficulty in
  if includes lower (str "beginner") || includes lower (str "easy")
     || includes lower (str "level 1")
  then Some (str "Beginner")
  else if includes lower (str "intermediate") || includes lower (str "level 2")
  then Some (str "Intermediate")
  else if includes lower (str "advanced") || includes lower (str "level 3")
  then Some (str "Advanced")
  else if includes lower (str "expert") || includes lower (str "level 4")
  then Some (str "Expert")
  else None.

Definition difficultyAttempt (text : jsstring) (pattern : regex)
    : option jsstring :=
  match firstMatch pattern text with
  | Some m0 =>
      let difficulty := trim (replaceAll upToColon [] m0) in
      let normalized := normalizeDifficulty difficulty in
      if truthy normalized then normalized else None
  | None => None
  end.

Definition extractDifficulty (text : jsstring) : option jsstring :=
  firstAccepted (difficultyAttempt text) DIFFICULTY_PATTERNS.

(** [if (v) data.field = v]: a field is set only to a non-empty string. *)
Definition setIfTruthy (v : option jsstring) : option jsstring :=
  if truthy v then v else None.

Definition extractStructuredData (text : jsstring) : ExtractedData :=
  let company := extractCompany text in
  {| company := setIfTruthy company;
     patternNumber := setIfTruthy (extractPatternNumber text);
     patternName := setIfTruthy (extractPatternName text company);
     sizeRange := setIfTruthy (extractSizeRange text);
     fabricType := setIfTruthy (extractFabricType text);
     difficulty := setIfTruthy (extractDifficulty text) |}.

(** [Math.min] on two numbers. *)
Definition Math_min (a b : float) : float :=
  if (PrimFloat.is_nan a || PrimFloat.is_nan b)%bool then PrimFloat.nan
  else if PrimFloat.ltb a b then a
  else if PrimFloat.ltb b a then b
  else if (PrimFloat.is_zero a && PrimFloat.get_sign a)%bool then a
  else b.

Definition addIf (cond : bool) (score weight : float) : float :=
  if cond then (score + weight)%float else score.

Definition calculateConfidence (extractedData : ExtractedData)
    (text : jsstring) : float :=
  let score := 0.3%float in
  let score := addIf (truthy (company extractedData)) score 0.2 in
  let score := addIf (truthy (patternNumber extractedData)) score 0.2 in
  let score := addIf (truthy (patternName extractedData)) score 0.15 in
  let score := addIf (truthy (sizeRange extractedData)) score 0.1 in
  let score := addIf (truthy (fabricType extractedData)) score 0.05 in
  let score := addIf (truthy (difficulty extractedData)) score 0.05 in
  let score := addIf (Nat.ltb 50 (List.length text)) score 0.05 in
  let score := addIf (Nat.ltb 100 (List.length text)) score 0.05 in
  Math_min score 1.0.

(** [extractedText.replace(/\s+/g, ' ').trim()] *)
Definition cleanUp (extractedText : jsstring) : jsstring :=
  trim (replaceAll whitespaceRun (str " ") extractedText).

(** [processOCR] once the text-recognition service has returned
    [extractedText]; a failure of the service is raised before this point. *)
Definition processOCR (extractedText : jsstring) : OCRResult :=
  let cleanText := cleanUp extractedText in
  let extractedData := extractStructuredData cleanText in
  let confidence := calculateConfidence extractedData cleanText in
  {| text := cleanText; confidence := confidence;
     extractedData := extractedData |}.

(** ** The add-pattern form and its OCR pre-fill *)

(** The fields of [extractedData], under names that the form's own fields
    (which share them) do not hide. *)
Module Ocr.
Definition patternNumber (d : ExtractedData) := patternNumber d.
Definition patternName (d : ExtractedData) := patternName d.
Definition sizeRange (d : ExtractedData) := sizeRange d.
Definition fabricType (d : ExtractedData) := fabricType d.
Definition difficulty (d : ExtractedData) := difficulty d.
End Ocr.

Module Form.

(** A [File] object, known here by an identifier only. *)
Definition File := nat.

Record PatternFormData : Type := mkForm {
  patternName : jsstring;
  patternCompany : jsstring;
  patternNumber : jsstring;
  sizeRange : jsstring;
  difficulty : jsstring;
  fabricType : jsstring;
  notes : jsstring;
  frontPhoto : option File;
  backPhoto : option File
}.

(** The keys [handleInputChange] is called with. *)
Inductive Field : Type :=
| FPatternName | FPatternCompany | FPatternNumber | FSizeRange
| FDifficulty | FFabricType | FNotes.

Inductive PhotoType : Type := Front | Back.

Definition getField (f : Field) (d : PatternFormData) : jsstring :=
  match f with
  | FPatternName => patternName d
  | FPatternCompany => patternCompany d
  | FPatternNumber => patternNumber d
  | FSizeRange => sizeRange d
  | FDifficulty => difficulty d
  | FFabricType => fabricType d
  | FNotes => notes d
  end.

(** [{ ...prev, [field]: value }] *)
Definition setField (f : Field) (value : jsstring) (prev : PatternFormData)
    : PatternFormData :=
  match f with
  | FPatternName =>
      mkForm value (patternCompany prev) (patternNumber prev)
        (sizeRange prev) (difficulty prev) (fabricType prev) (notes prev)
        (frontPhoto prev) (backPhoto prev)
  | FPatternCompany =>
      mkForm (patternName prev) value (patternNumber prev)
        (sizeRange prev) (difficulty prev) (fabricType prev) (notes prev)
        (frontPhoto prev) (backPhoto prev)
  | FPatternNumber =>
      mkForm (patternName prev) (patternCompany prev) value
        (sizeRange prev) (difficulty prev) (fabricType prev) (notes prev)
        (frontPhoto prev) (backPhoto prev)
  | FSizeRange =>
      mkForm (patternName prev) (patternCompany prev) (patternNumber prev)
        value (difficulty prev) (fabricType prev) (notes prev)
        (frontPhoto prev) (backPhoto prev)
  | FDifficulty =>
      mkForm (patternName prev) (patternCompany prev) (patternNumber prev)
        (sizeRange prev) value (fabricType prev) (notes prev)
        (frontPhoto prev) (backPhoto prev)
  | FFabricType =>
      mkForm (patternName prev) (patternCompany prev) (patternNumber prev)
        (sizeRange prev) (difficulty prev) value (notes prev)
        (frontPhoto prev) (backPhoto prev)
  | FNotes =>
      mkForm (patternName prev) (patternCompany prev) (patternNumber prev)
        (sizeRange prev) (difficulty prev) (fabricType prev) value
        (frontPhoto prev) (backPhoto prev)
  end.

(** [{ ...prev, [`${type}Photo`]: file }] *)
Definition setPhoto (type : PhotoType) (file : File) (prev : PatternFormData)
    : PatternFormData :=
  match type with
  | Front =>
      mkForm (patternName prev) (patternCompany prev) (patternNumber prev)
        (sizeRange prev) (difficulty prev) (fabricType prev) (notes prev)
        (Some file) (backPhoto prev)
  | Back =>
      mkForm (patternName prev) (patternCompany prev) (patternNumber prev)
        (sizeRange prev) (difficulty prev) (fabricType prev) (notes prev)
        (frontPhoto prev) (Some file)
  end.

(** The state given to [useState], which [resetForm] sets again. *)
Definition initialForm : PatternFormData :=
  mkForm [] [] [] [] (str "Beginner") [] [] None None.

(** The values of the [SelectItem]s of the difficulty selector. *)
Definition DIFFICULTIES : list jsstring :=
  map str ["Beginner"; "Intermediate"; "Advanced"; "Expert"]%string.

(** A state updater handed to [setFormData]; React runs it on the state
    the store holds at that time. *)
Definition Updater := PatternFormData -> PatternFormData.

(** [handleInputChange(field, value)] queues
    [setFormData(prev => ({ ...prev, [field]: value }))]. *)
Definition handleInputChange (f : Field) (value : jsstring) : Updater :=
  setField f value.

Definition isEmpty (s : jsstring) : bool :=
  match s with
  | [] => true
  | _ :: _ => false
  end.

(** [if (extractedData.x && !formData.y)]
    [handleInputChange('y', extractedData.x)] *)
Definition fillIfEmpty (extracted : option jsstring) (current : jsstring)
    (f : Field) : list Updater :=
  match extracted with
  | Some v => if truthy extracted && isEmpty current
              then [handleInputChange f v] else []
  | None => []
  end.

(** The part of [processOCRForPhoto] that follows [await processOCR(file)].
    [formData] is the constant of the render in which the handler was
    created; the updaters it queues are returned in order. *)
Definition autoFill (formData : PatternFormData)
    (extractedData : ExtractedData) : list Updater :=
  fillIfEmpty (company extractedData) (patternCompany formData) FPatternCompany
  ++ fillIfEmpty (Ocr.patternNumber extractedData)
       (patternNumber formData) FPatternNumber
  ++ fillIfEmpty (Ocr.patternName extractedData)
       (patternName formData) FPatternName
  ++ fillIfEmpty (Ocr.sizeRange extractedData)
       (sizeRange formData) FSizeRange
  ++ fillIfEmpty (Ocr.fabricType extractedData)
       (fabricType formData) FFabricType
  ++ fillIfEmpty (Ocr.difficulty extractedData)
       (difficulty formData) FDifficulty.

Definition runUpdaters (us : list Updater) (current : PatternFormData)
    : PatternFormData :=
  fold_left (fun st u => u st) us current.

(** The dialog: the form state in the store, and for every OCR call in
    flight the [formData] its handler closed over. *)
Record Dialog : Type := mkDialog {
  store : PatternFormData;
  inFlight : list PatternFormData
}.

Definition initialDialog : Dialog := mkDialog initialForm [].

Inductive Event : Type :=
| Typed (f : Field) (value : jsstring)      (* a text input changed *)
| Selected (value : jsstring)               (* the difficulty selector *)
| Uploaded (type : PhotoType) (file : File) (* handlePhotoUpload starts *)
| OcrDone (k : nat) (result : OCRResult)    (* a call in flight returns *)
| OcrFailed (k : nat)                       (* a call in flight throws *)
| Reset.                                    (* resetForm after a submit *)

Fixpoint removeNth {A : Type} (k : nat) (l : list A) : list A :=
  match l, k with
  | [], _ => []
  | _ :: l', 0 => l'
  | x :: l', S k' => x :: removeNth k' l'
  end.

(** One event of the dialog.  An event the interface cannot produce (a
    difficulty outside the selector, the difficulty through a text input,
    the return of a call that is not in flight) gives [None]. *)
Definition step (d : Dialog) (e : Event) : option Dialog :=
  match e with
  | Typed FDifficulty _ => None
  | Typed f value =>
      Some (mkDialog (handleInputChange f value (store d)) (inFlight d))
  | Selected value =>
      if arr_includes DIFFICULTIES value
      then Some (mkDialog (handleInputChange FDifficulty value (store d))
                          (inFlight d))
      else None
  | Uploaded type file =>
      Some (mkDialog (setPhoto type file (store d)) (store d :: inFlight d))
  | OcrDone k result =>
      match nth_error (inFlight d) k with
      | Some formData =>
          Some (mkDialog
                  (runUpdaters (autoFill formData (extractedData result))
                               (store d))
                  (removeNth k (inFlight d)))
      | None => None
      end
  | OcrFailed k =>
      match nth_error (inFlight d) k with
      | Some _ => Some (mkDialog (store d) (removeNth k (inFlight d)))
      | None => None
      end
  | Reset => Some (mkDialog initialForm (inFlight d))
  end.

Fixpoint run (d : Dialog) (es : list Event) : option Dialog :=
  match es with
  | [] => Some d
  | e :: rest =>
      match step d e with
      | Some d' => run d' rest
      | None => None
      end
  end.

(** The dialogs that some sequence of events leads to. *)
Definition reachable (d : Dialog) : Prop :=
  exists es, run initialDialog es = Some d.

End Form.

(** ** The rules as the specification words them

    Second definitions, written from the sentences of the specification, to
    be compared with the functions of the source above. *)

Module Claimed.

Definition present (v : option jsstring) : bool :=
  match v with
  | Some _ => true
  | None => false
  end.

Definition weight (cond : bool) (w : float) : float :=
  if cond then w else 0%float.

(** Base 0.3 plus the weight of every populated field. *)
Definition fieldScore (d : ExtractedData) : float :=
  (0.3 + weight (present (company d)) 0.2
       + weight (present (patternNumber d)) 0.2
       + weight (present (patternName d)) 0.15
       + weight (present (sizeRange d)) 0.1
       + weight (present (fabricType d)) 0.05
       + weight (present (difficulty d)) 0.05)%float.

(** [min(1.0, base + field weights + length bonuses)]. *)
Definition confidence (d : ExtractedData) (len : nat) : float :=
  Math_min 1.0
    (fieldScore d + weight (Nat.ltb 50 len) 0.05
                  + weight (Nat.ltb 100 len) 0.05)%float.

(** "Take the first pattern-shape that yields any match; from its
    matches, take the first." *)
Fixpoint firstMatching (text : jsstring) (patterns : list regex)
    : option jsstring :=
  match patterns with
  | [] => None
  | pattern :: rest =>
      match firstMatch pattern text with
      | Some m0 => Some m0
      | None => firstMatching text rest
      end
  end.

(** "... strip any leading label text; accept only if the stripped result
    is 3-6 characters; normalize to uppercase." *)
Definition patternNumber (text : jsstring) : option jsstring :=
  match firstMatching text numberPatterns with
  | Some m0 =>
      let m := stripNumberLabels m0 in
      if lengthBetween 3 6 m then Some (toUpperCase m) else None
  | None => None
  end.

(** "On first match, normalize ...  If the matched text normalizes to
    none of these, the field remains absent." *)
Definition difficulty (text : jsstring) : option jsstring :=
  match firstMatching text DIFFICULTY_PATTERNS with
  | Some m0 => normalizeDifficulty (trim (replaceAll upToColon [] m0))
  | None => None
  end.

(** "From whichever pattern matches first, strip ...  Accept only if the
    cleaned result is 5-50 characters." *)
Definition patternName (text : jsstring) (company : option jsstring)
    : option jsstring :=
  match firstMatching text namePatterns with
  | Some m0 =>
      let name := cleanName company m0 in
      if lengthBetween 5 50 name then Some name else None
  | None => None
  end.

(** "... look for Fabric(s): / Suggested Fabric(s): / Recommended
    Fabric(s): labels and capture the 5-30 character span following the
    label": the label, then 5 to 30 code units short of a line break; the
    entry is the first match without the label it starts with. *)
Definition labelOf (k : nat) : list regex :=
  (match k with
   | 0 => []
   | 1 => [wordI (str "Suggested"); star sp]
   | _ => [wordI (str "Recommended"); star sp]
   end)
  ++ [wordI (str "Fabric"); opt (litI 115); star sp; opt colon; star sp].

Definition labelledSpan (k : nat) : regex :=
  seq (labelOf k ++ [times 5 30 dot]).

Definition spanAfterLabel (k : nat) (text : jsstring) : list jsstring :=
  match firstMatch (labelledSpan k) text with
  | Some m0 =>
      match Matcher.matchAt m0 (seq (labelOf k)) 0 with
      | Some e => [skipn e m0]
      | None => [m0]
      end
  | None => []
  end.

Definition fabricType (text : jsstring) : option jsstring :=
  let found := catalogHits text
               ++ flat_map (fun k => spanAfterLabel k text) [0; 1; 2] in
  match found with
  | [] => None
  | _ => Some (join (str ", ") (firstn 3 found))
  end.

End Claimed.

(** A pattern is turned down when it has no match in the text or when its
    first match fails the check made on it. *)
Definition turnedDown (check : jsstring -> bool) (text : jsstring)
    (pattern : regex) : Prop :=
  match firstMatch pattern text with
  | Some m0 => check m0 = false
  | None => True
  end.

Definition numberOk (m0 : jsstring) : bool :=
  lengthBetween 3 6 (stripNumberLabels m0).

Definition nameOk (company : option jsstring) (m0 : jsstring) : bool :=
  lengthBetween 5 50 (cleanName company m0).

Definition difficultyOf (m0 : jsstring) : option jsstring :=
  normalizeDifficulty (trim (replaceAll upToColon [] m0)).

Definition difficultyOk (m0 : jsstring) : bool :=
  Claimed.present (difficultyOf m0).

Definition noFields (d : ExtractedData) : bool :=
  negb (Claimed.present (company d)) && negb (Claimed.present (patternNumber d))
  && negb (Claimed.present (patternName d))
  && negb (Claimed.present (sizeRange d))
  && negb (Claimed.present (fabricType d))
  && negb (Claimed.present (difficulty d)).

(** Base score and length bonuses alone. *)
Definition baseWithBonus (len : nat) : float :=
  addIf (Nat.ltb 100 len) (addIf (Nat.ltb 50 len) 0.3 0.05) 0.05.

(** No catalog name occurs in the text as an exact phrase. *)
Definition noExactPhrase (text : jsstring) : Prop :=
  existsb (fun name => test (companyRegex name) text) PATTERN_COMPANIES
  = false.

(** Some word of the catalog name is a token of the text, both split on
    white space after lower-casing. *)
Definition overlaps (text name : jsstring) : Prop :=
  exists w, In w (companyWords name) /\ In w (companyWords text).

(** The difficulty of a form is one of the values of the selector. *)
Definition difficultySet (formData : Form.PatternFormData) : Prop :=
  In (Form.difficulty formData) Form.DIFFICULTIES.

Definition dialogInv (d : Form.Dialog) : Prop :=
  difficultySet (Form.store d) /\ Forall difficultySet (Form.inFlight d).

(** ** Sample texts *)

Definition lawnDressText : jsstring :=
  str ("Butterick B6789 Misses shirt dress with collar and cuffs, "
       ++ "sizes 6-14, suggested fabrics: cotton lawns").

Definition brightColdDayText : jsstring :=
  str "it was a bright cold day in april and the clocks were striking thirteen".

Definition pajamaTopText : jsstring :=
  str ("Kids cozy pajama top with a yoke; full details below. "
       ++ "Design: Misses Kids Boys").

(** ** What a pattern matches

    The positions a pattern can link, to state what the matcher finds. *)

Fixpoint iterLang (L : nat -> nat -> Prop) (k : nat) (x y : nat) : Prop :=
  match k with
  | 0 => x = y
  | S k' => exists z, L x z /\ iterLang L k' z y
  end.

(** [lang input r x y]: the pattern [r] matches the code units of [input]
    from position [x] up to position [y]. *)
Fixpoint lang (input : jsstring) (r : regex) (x y : nat) : Prop :=
  match r with
  | Eps => x = y
  | Chr p => exists ch, Matcher.charAt input x = Some ch /\ p ch = true
                        /\ y = S x
  | Seq r1 r2 => exists z, lang input r1 x z /\ lang input r2 z y
  | Alt r1 r2 => lang input r1 x y \/ lang input r2 x y
  | Rep _ lo hi r1 =>
      exists k, iterLang (lang input r1) k x y
                /\ match hi with
                   | Some h => k <= h /\ (lo <= h -> lo <= k)
                   | None => lo <= k
                   end
  | WordB => Matcher.wordBoundary input x = true /\ x = y
  | Bol => Matcher.lineStart input x = true /\ x = y
  end.

(** A matcher is sound for [L] when every result it returns was accepted
    by its continuation at a position that [L] links to the start. *)
Definition soundFor (L : nat -> nat -> Prop)
    (m : nat -> (nat -> option nat) -> option nat) : Prop :=
  forall x c z, m x c = Some z -> exists y, L x y /\ c y = Some z.

(** A matcher is local when its result at [x] depends on its continuation
    at the positions from [x] to the end of the input only. *)
Definition localMatcher (input : jsstring)
    (m : nat -> (nat -> option nat) -> option nat) : Prop :=
  forall x c c', x <= List.length input ->
    (forall y, x <= y <= List.length input -> c y = c' y) -> m x c = m x c'.

(** A matcher fails when its continuation fails at every position from [x]
    to the end of the input. *)
Definition failsWith (input : jsstring)
    (m : nat -> (nat -> option nat) -> option nat) : Prop :=
  forall x c, x <= List.length input ->
    (forall y, x <= y <= List.length input -> c y = None) -> m x c = None.

(** No two neighbouring code units of [m] are both other than digits. *)
Definition noLetterPair (m : jsstring) : Prop :=
  forall i a b, nth_error m i = Some a -> nth_error m (S i) = Some b ->
                isDigit a = true \/ isDigit b = true.

(** [m] spells the letters of [w], in any case. *)
Definition spells (w m : jsstring) : Prop :=
  Forall2 (fun a ch => ci (char_eqb a) ch = true) w m.

(** [w] occurs in [text], in any case, between two word boundaries. *)
Definition occursStandalone (w text : jsstring) : Prop :=
  exists i, i + List.length w <= List.length text
            /\ spells w (substring text i (i + List.length w))
            /\ Matcher.wordBoundary text i = true
            /\ Matcher.wordBoundary text (i + List.length w) = true.

Definition difficultyWords : list jsstring :=
  map str ["Beginner"; "Easy"; "Intermediate"; "Advanced"; "Expert"]%string.

(** ** Normalized texts *)

(** The number of leading code units of [l] that satisfy [p]. *)
Fixpoint spanLen (p : char -> bool) (l : jsstring) : nat :=
  match l with
  | [] => 0
  | c :: l' => if p c then S (spanLen p l') else 0
  end.

(** White-space runs collapsed to one space: [inRun] tells that the code
    unit before was white space. *)
Fixpoint collapse (inRun : bool) (s : jsstring) : jsstring :=
  match s with
  | [] => []
  | c :: s' =>
      if isSpace c
      then (if inRun then [] else [32%N]) ++ collapse true s'
      else c :: collapse false s'
  end.

(** Every white-space code unit of [s] is a space (U+0020) with no white
    space after it. *)
Fixpoint singleSpaces (s : jsstring) : Prop :=
  match s with
  | [] => True
  | c :: s' =>
      (isSpace c = true ->
         c = 32%N /\ match s' with
                     | [] => True
                     | c' :: _ => isSpace c' = false
                     end)
      /\ singleSpaces s'
  end.

(** [s] does not start with white space. *)
Definition startsClean (s : jsstring) : Prop :=
  match s with
  | [] => True
  | c :: _ => isSpace c = false
  end.

Definition nonSpace (c : char) : bool := negb (isSpace c).

(** The letter codes of the first size pattern. *)
Definition sizeWords : list jsstring :=
  map str ["XS"; "S"; "M"; "L"; "XL"; "XXL"]%string.

(** ** The confidence shown *)

(** [Math.round]: the integral number closest to [x], ties going up.
    Below 2^52 in absolute value, adding and taking away 2^52 rounds the
    absolute value to an integer, which is then moved to the floor; from
    2^52 on, and for NaN and the infinities, [x] is its own rounding. *)
Definition Math_round (x : float) : float :=
  let a := PrimFloat.abs x in
  if negb (PrimFloat.ltb a 4503599627370496)%float then x
  else if PrimFloat.is_zero x then x
  else
    let r := (a + 4503599627370496 - 4503599627370496)%float in
    let fl := if PrimFloat.ltb a r then (r - 1)%float else r in
    let frac := (a - fl)%float in
    if PrimFloat.ltb x 0
    then PrimFloat.opp (if PrimFloat.ltb 0.5 frac then fl + 1 else fl)%float
    else (if PrimFloat.leb 0.5 frac then fl + 1 else fl)%float.

(** [Math.round(ocrResult.confidence * 100)], the percentage shown in the
    toast and above the OCR results. *)
Definition confidencePercent (confidence : float) : float :=
  Math_round (confidence * 100)%float.

Fixpoint floatOfNat (n : nat) : float :=
  match n with
  | 0 => 0%float
  | S n' => (floatOfNat n' + 1)%float
  end.

Definition points (cond : bool) (n : nat) : nat := if cond then n else 0.

(** The score in hundredths, in exact arithmetic. *)
Definition percentPoints (d : ExtractedData) (len : nat) : nat :=
  Nat.min 100
    (30 + points (truthy (company d)) 20 + points (truthy (patternNumber d)) 20
     + points (truthy (patternName d)) 15 + points (truthy (sizeRange d)) 10
     + points (truthy (fabricType d)) 5 + points (truthy (difficulty d)) 5
     + points (Nat.ltb 50 len) 5 + points (Nat.ltb 100 len) 5).

(** [f a b] for every pair of booleans with [a] implying [b]. *)
Definition upward (f : bool -> bool -> bool) : bool :=
  f false false && f false true && f true true.

(** The score of [calculateConfidence] as a function of its eight tests. *)
Definition scoreOf (c n m s f d l1 l2 : bool) : float :=
  Math_min
    (addIf l2 (addIf l1 (addIf d (addIf f (addIf s (addIf m (addIf n
       (addIf c 0.3 0.2) 0.2) 0.15) 0.1) 0.05) 0.05) 0.05) 0.05)
    1.0.

Definition scoreMonotone : bool :=
  upward (fun c c' => upward (fun n n' => upward (fun m m' =>
  upward (fun s s' => upward (fun f f' => upward (fun d d' =>
  upward (fun l1 l1' => upward (fun l2 l2' =>
    PrimFloat.leb (scoreOf c n m s f d l1 l2)
                  (scoreOf c' n' m' s' f' d' l1' l2'))))))))).

(** ** Submitting the form *)

Module Submit.

(** [ocrResults]: the last OCR result stored for each side. *)
Record OcrResults : Type := mkOcr {
  front : option OCRResult;
  back : option OCRResult
}.

(** [s || null] on a string. *)
Definition orNull (s : jsstring) : option jsstring :=
  if Form.isEmpty s then None else Some s.

(** [x || null] on a number: zero and NaN are falsy. *)
Definition numberOrNull (x : float) : option float :=
  if (PrimFloat.is_zero x || PrimFloat.is_nan x)%bool then None else Some x.

(** The record handed to [blink.db.patterns.create]. *)
Record NewPattern : Type := mkNewPattern {
  id : jsstring;
  userId : jsstring;
  patternName : option jsstring;
  patternCompany : option jsstring;
  patternNumber : option jsstring;
  sizeRange : option jsstring;
  difficulty : jsstring;
  fabricType : option jsstring;
  notes : option jsstring;
  frontPhotoUrl : option jsstring;
  backPhotoUrl : option jsstring;
  frontOcrText : option jsstring;
  backOcrText : option jsstring;
  frontOcrConfidence : option float;
  backOcrConfidence : option float;
  createdAt : jsstring;
  updatedAt : jsstring
}.

(** [ocrResults.side?.text || null] and
    [ocrResults.side?.confidence || null] *)
Definition ocrText (r : option OCRResult) : option jsstring :=
  match r with
  | Some r => orNull (text r)
  | None => None
  end.

Definition ocrConfidence (r : option OCRResult) : option float :=
  match r with
  | Some r => numberOrNull (confidence r)
  | None => None
  end.

(** What [handleSubmit] gets from outside: the public URL of an uploaded
    photo, the identifier drawn for the record, the user and the two time
    stamps. *)
Record Outside : Type := mkOutside {
  publicUrl : Form.PhotoType -> Form.File -> jsstring;
  patternId : jsstring;
  user : jsstring;
  now1 : jsstring;
  now2 : jsstring
}.

Definition uploadedUrl (o : Outside) (type : Form.PhotoType)
    (photo : option Form.File) : jsstring :=
  match photo with
  | Some file => publicUrl o type file
  | None => []
  end.

(** [handleSubmit], when no call to the backend throws: nothing is created
    without a photo; otherwise the record below is created (and the form
    is reset). *)
Definition handleSubmit (o : Outside) (formData : Form.PatternFormData)
    (ocrResults : OcrResults) : option NewPattern :=
  match Form.frontPhoto formData, Form.backPhoto formData with
  | None, None => None
  | _, _ =>
      let frontPhotoUrl :=
        uploadedUrl o Form.Front (Form.frontPhoto formData) in
      let backPhotoUrl :=
        uploadedUrl o Form.Back (Form.backPhoto formData) in
      Some {| id := patternId o;
              userId := user o;
              patternName := orNull (Form.patternName formData);
              patternCompany := orNull (Form.patternCompany formData);
              patternNumber := orNull (Form.patternNumber formData);
              sizeRange := orNull (Form.sizeRange formData);
              difficulty := Form.difficulty formData;
              fabricType := orNull (Form.fabricType formData);
              notes := orNull (Form.notes formData);
              frontPhotoUrl := orNull frontPhotoUrl;
              backPhotoUrl := orNull backPhotoUrl;
              frontOcrText := ocrText (front ocrResults);
              backOcrText := ocrText (back ocrResults);
              frontOcrConfidence := ocrConfidence (front ocrResults);
              backOcrConfidence := ocrConfidence (back ocrResults);
              createdAt := now1 o;
              updatedAt := now2 o |}
  end.

End Submit.

(** The value the extractor returned for a field of the form. *)
Definition extractedFor (g : Form.Field) (ed : ExtractedData)
    : option jsstring :=
  match g with
  | Form.FPatternCompany => company ed
  | Form.FPatternNumber => Ocr.patternNumber ed
  | Form.FPatternName => Ocr.patternName ed
  | Form.FSizeRange => Ocr.sizeRange ed
  | Form.FFabricType => Ocr.fabricType ed
  | Form.FDifficulty => Ocr.difficulty ed
  | Form.FNotes => None
  end.

(** What a field holds once an OCR result is merged into [st] by a handler
    that closed over [formData]. *)
Definition mergedField (g : Form.Field) (ed : ExtractedData)
    (formData st : Form.PatternFormData) : jsstring :=
  match extractedFor g ed with
  | Some v =>
      if truthy (extractedFor g ed)
         && Form.isEmpty (Form.getField g formData)
      then v else Form.getField g st
  | None => Form.getField g st
  end.

Definition isUpload (e : Form.Event) : bool :=
  match e with
  | Form.Uploaded _ _ => true
  | _ => false
  end.

Definition noPhoto (formData : Form.PatternFormData) : Prop :=
  Form.frontPhoto formData = None /\ Form.backPhoto formData = None.

(** Sample values from outside for a submission. *)
Definition sampleOutside : Submit.Outside :=
  Submit.mkOutside (fun _ _ => str "https://storage/front.jpg")
    (str "pattern_1") (str "user_1")
    (str "2024-01-01T00:00:00.000Z") (str "2024-01-01T00:00:00.001Z").

(** * Properties *)

(** ** The matcher *)

Section MatcherFacts.

Variable input : jsstring.

Local Notation "'len'" := (List.length input).
Local Abbreviation rep := Matcher.repeatMatcher.

Lemma charAt_Some_lt (x : nat) (ch : char) :
  Matcher.charAt input x = Some ch -> x < len.
Proof.
  unfold Matcher.charAt. intros H. apply nth_error_Some. congruence.
Qed.

Lemma repeatMatcher_local m greedy :
  localMatcher input m ->
  forall n lo, localMatcher input (rep m greedy n lo).
Proof.
  intros Hm n. induction n as [|n IH]; intros lo x c c' Hx Hc;
    cbn [Matcher.repeatMatcher].
  - apply Hc. lia.
  - assert (Hd : m x (fun y => if (Nat.eqb lo 0 && Nat.eqb y x)%bool then None
                               else rep m greedy n (Nat.pred lo) y c)
               = m x (fun y => if (Nat.eqb lo 0 && Nat.eqb y x)%bool then None
                               else rep m greedy n (Nat.pred lo) y c')).
    { apply Hm; [exact Hx|]. intros y Hy.
      destruct (Nat.eqb lo 0 && Nat.eqb y x)%bool; [reflexivity|].
      apply IH; [lia|]. intros z Hz. apply Hc. lia. }
    rewrite Hd, (Hc x) by lia. reflexivity.
Qed.

Lemma matcherWith_local slack r :
  localMatcher input (Matcher.matcherWith input slack r).
Proof.
  induction r as [|p|r1 IH1 r2 IH2|r1 IH1 r2 IH2|greedy lo hi r1 IH| |];
    intros x c c' Hx Hc; cbn [Matcher.matcherWith].
  - apply Hc. lia.
  - destruct (Matcher.charAt input x) as [ch|] eqn:Hch; [|reflexivity].
    apply charAt_Some_lt in Hch. destruct (p ch); [|reflexivity].
    apply Hc. lia.
  - apply IH1; [exact Hx|]. intros y Hy. apply IH2; [lia|].
    intros z Hz. apply Hc. lia.
  - rewrite (IH1 x c c' Hx Hc), (IH2 x c c' Hx Hc). reflexivity.
  - apply repeatMatcher_local; assumption.
  - rewrite (Hc x) by lia. reflexivity.
  - rewrite (Hc x) by lia. reflexivity.
Qed.

Lemma repeatMatcher_fails m greedy :
  failsWith input m ->
  forall n lo, failsWith input (rep m greedy n lo).
Proof.
  intros Hm n. induction n as [|n IH]; intros lo x c Hx Hc;
    cbn [Matcher.repeatMatcher].
  - apply Hc. lia.
  - assert (Hd : m x (fun y => if (Nat.eqb lo 0 && Nat.eqb y x)%bool then None
                               else rep m greedy n (Nat.pred lo) y c) = None).
    { apply Hm; [exact Hx|]. intros y Hy.
      destruct (Nat.eqb lo 0 && Nat.eqb y x)%bool; [reflexivity|].
      apply IH; [lia|]. intros z Hz. apply Hc. lia. }
    rewrite Hd, (Hc x) by lia.
    destruct (negb (Nat.eqb lo 0)), greedy; reflexivity.
Qed.

Lemma matcherWith_fails slack r :
  failsWith input (Matcher.matcherWith input slack r).
Proof.
  induction r as [|p|r1 IH1 r2 IH2|r1 IH1 r2 IH2|greedy lo hi r1 IH| |];
    intros x c Hx Hc; cbn [Matcher.matcherWith].
  - apply Hc. lia.
  - destruct (Matcher.charAt input x) as [ch|] eqn:Hch; [|reflexivity].
    apply charAt_Some_lt in Hch. destruct (p ch); [|reflexivity].
    apply Hc. lia.
  - apply IH1; [exact Hx|]. intros y Hy. apply IH2; [lia|].
    intros z Hz. apply Hc. lia.
  - rewrite (IH1 x c Hx Hc), (IH2 x c Hx Hc). reflexivity.
  - apply repeatMatcher_fails; assumption.
  - rewrite (Hc x) by lia. destruct (Matcher.wordBoundary input x); reflexivity.
  - rewrite (Hc x) by lia. destruct (Matcher.lineStart input x); reflexivity.
Qed.

Lemma orElse_None_r (a : option nat) : orElse a None = a.
Proof. destruct a; reflexivity. Qed.

(** Once [lo] plus the number of code units left are allowed, one more
    iteration changes nothing. *)
Lemma repeatMatcher_one_more m greedy :
  localMatcher input m -> failsWith input m ->
  forall n lo x c, x <= len -> lo + (len - x) <= n ->
    rep m greedy (S n) lo x c = rep m greedy n lo x c.
Proof.
  intros Hloc Hfail n. induction n as [|n IH]; intros lo x c Hx Hn.
  - assert (lo = 0) by lia. assert (x = len) by lia. subst lo x.
    cbn [Matcher.repeatMatcher Nat.eqb negb andb].
    rewrite (Hfail len _ (Nat.le_refl _)).
    + destruct greedy; [reflexivity|apply orElse_None_r].
    + intros y Hy. replace (Nat.eqb y len) with true; [reflexivity|].
      symmetry. apply Nat.eqb_eq. lia.
  - change (rep m greedy (S (S n)) lo x c)
      with (let d := fun y =>
              if (Nat.eqb lo 0 && Nat.eqb y x)%bool then None
              else rep m greedy (S n) (Nat.pred lo) y c in
            if negb (Nat.eqb lo 0) then m x d
            else if greedy then orElse (m x d) (c x)
            else orElse (c x) (m x d)).
    change (rep m greedy (S n) lo x c)
      with (let d := fun y =>
              if (Nat.eqb lo 0 && Nat.eqb y x)%bool then None
              else rep m greedy n (Nat.pred lo) y c in
            if negb (Nat.eqb lo 0) then m x d
            else if greedy then orElse (m x d) (c x)
            else orElse (c x) (m x d)).
    cbv zeta.
    assert (Hd : m x (fun y => if (Nat.eqb lo 0 && Nat.eqb y x)%bool then None
                               else rep m greedy (S n) (Nat.pred lo) y c)
               = m x (fun y => if (Nat.eqb lo 0 && Nat.eqb y x)%bool then None
                               else rep m greedy n (Nat.pred lo) y c)).
    { apply Hloc; [exact Hx|]. intros y Hy.
      destruct (Nat.eqb lo 0) eqn:Hlo; cbn [andb].
      - destruct (Nat.eqb y x) eqn:Hyx; [reflexivity|].
        apply Nat.eqb_eq in Hlo. apply Nat.eqb_neq in Hyx.
        apply IH; lia.
      - apply Nat.eqb_neq in Hlo. apply IH; lia. }
    rewrite Hd. reflexivity.
Qed.

Lemma repeatMatcher_more m greedy :
  localMatcher input m -> failsWith input m ->
  forall k n lo x c, x <= len -> lo + (len - x) <= n ->
    rep m greedy (n + k) lo x c = rep m greedy n lo x c.
Proof.
  intros Hloc Hfail k. induction k as [|k IH]; intros n lo x c Hx Hn.
  - rewrite Nat.add_0_r. reflexivity.
  - rewrite Nat.add_succ_r, repeatMatcher_one_more by (auto; lia).
    apply IH; assumption.
Qed.

(** Two matchers that agree on the input agree under a quantifier. *)
Lemma repeatMatcher_ext m m' greedy :
  localMatcher input m' ->
  (forall x c, x <= len -> m x c = m' x c) ->
  forall n lo x c, x <= len ->
    rep m greedy n lo x c = rep m' greedy n lo x c.
Proof.
  intros Hloc Heq n. induction n as [|n IH]; intros lo x c Hx;
    cbn [Matcher.repeatMatcher]; [reflexivity|].
  assert (Hd : m x (fun y => if (Nat.eqb lo 0 && Nat.eqb y x)%bool then None
                             else rep m greedy n (Nat.pred lo) y c)
             = m' x (fun y => if (Nat.eqb lo 0 && Nat.eqb y x)%bool then None
                              else rep m' greedy n (Nat.pred lo) y c)).
  { rewrite Heq by exact Hx. apply Hloc; [exact Hx|]. intros y Hy.
    destruct (Nat.eqb lo 0 && Nat.eqb y x)%bool; [reflexivity|].
    apply IH. lia. }
  rewrite Hd. reflexivity.
Qed.

(** The bound on the iterations of an unbounded quantifier cuts no run
    short: with any number of further iterations allowed, at every
    quantifier of the pattern, the matcher returns the same result. *)
Theorem matcherWith_slack (slack : nat) (r : regex) :
  forall x c, x <= len ->
    Matcher.matcherWith input slack r x c = Matcher.matcher input r x c.
Proof.
  unfold Matcher.matcher.
  induction r as [|p|r1 IH1 r2 IH2|r1 IH1 r2 IH2|greedy lo hi r1 IH| |];
    intros x c Hx; cbn [Matcher.matcherWith]; try reflexivity.
  - rewrite IH1 by exact Hx. apply matcherWith_local; [exact Hx|].
    intros y Hy. apply IH2. lia.
  - rewrite IH1, IH2 by exact Hx. reflexivity.
  - rewrite (repeatMatcher_ext _ (Matcher.matcherWith input 0 r1))
      by (auto using matcherWith_local).
    destruct hi as [h|]; cbn [Matcher.iterations]; [reflexivity|].
    rewrite Nat.add_0_r.
    apply repeatMatcher_more;
      auto using matcherWith_local, matcherWith_fails.
Qed.

End MatcherFacts.

Section Soundness.

Variable input : jsstring.

Lemma orElse_Some (a b : option nat) (z : nat) :
  orElse a b = Some z -> a = Some z \/ b = Some z.
Proof. destruct a; cbn; intros H; auto. Qed.

Lemma repeatMatcher_sound L m greedy :
  soundFor L m ->
  forall n lo x c z,
    Matcher.repeatMatcher m greedy n lo x c = Some z ->
    exists k y, iterLang L k x y /\ c y = Some z /\ k <= n
                /\ (lo <= n -> lo <= k).
Proof.
  intros Hm n. induction n as [|n IH]; intros lo x c z H;
    cbn [Matcher.repeatMatcher] in H.
  - exists 0, x. cbn. repeat split; auto.
  - assert (Hiter : forall d,
      d = (fun y => if (Nat.eqb lo 0 && Nat.eqb y x)%bool then None
                    else Matcher.repeatMatcher m greedy n (Nat.pred lo) y c) ->
      m x d = Some z ->
      exists k y, iterLang L k x y /\ c y = Some z /\ k <= S n
                  /\ (lo <= S n -> lo <= k)).
    { intros d -> Hd. apply Hm in Hd as (y1 & Hy1 & Hd).
      destruct (Nat.eqb lo 0 && Nat.eqb y1 x)%bool; [discriminate|].
      apply IH in Hd as (k & y & Hk & Hc & Hle & Hlo).
      exists (S k), y. repeat split; auto; [exists y1; auto|lia|lia]. }
    assert (Hstop : lo = 0 -> c x = Some z ->
      exists k y, iterLang L k x y /\ c y = Some z /\ k <= S n
                  /\ (lo <= S n -> lo <= k)).
    { intros -> Hc. exists 0, x. cbn. repeat split; auto; lia. }
    destruct (Nat.eqb lo 0) eqn:Hlo; cbn [negb] in H.
    + apply Nat.eqb_eq in Hlo.
      destruct greedy; apply orElse_Some in H as [H|H];
        first [apply Hstop; assumption
              |eapply Hiter; [reflexivity|exact H]].
    + eapply Hiter; [reflexivity|exact H].
Qed.

Theorem matcher_sound slack r :
  soundFor (lang input r) (Matcher.matcherWith input slack r).
Proof.
  induction r as [|p|r1 IH1 r2 IH2|r1 IH1 r2 IH2|greedy lo hi r1 IH| |];
    intros x c z H; cbn [Matcher.matcherWith] in H; cbn [lang].
  - eauto.
  - destruct (Matcher.charAt input x) as [ch|] eqn:Hch; [|discriminate].
    destruct (p ch) eqn:Hp; [|discriminate]. eauto 6.
  - apply IH1 in H as (y1 & H1 & H). apply IH2 in H as (y & H2 & H). eauto.
  - apply orElse_Some in H as [H|H];
      [apply IH1 in H|apply IH2 in H]; destruct H as (y & Hy & H); eauto.
  - apply (repeatMatcher_sound _ _ _ IH) in H as (k & y & Hk & Hc & Hle & Hlo).
    exists y. split; [|exact Hc]. exists k. split; [exact Hk|].
    destruct hi as [h|]; cbn [Matcher.iterations] in *; [auto|].
    apply Hlo. lia.
  - destruct (Matcher.wordBoundary input x) eqn:Hb; [|discriminate]. eauto.
  - destruct (Matcher.lineStart input x) eqn:Hb; [|discriminate]. eauto.
Qed.

End Soundness.

Section Shapes.

Variable input : jsstring.
Local Notation "'len'" := (List.length input).

Lemma iterLang_bounds (L : nat -> nat -> Prop) :
  (forall x y, L x y -> x <= y /\ (x <= len -> y <= len)) ->
  forall k x y, iterLang L k x y -> x <= y /\ (x <= len -> y <= len).
Proof.
  intros HL k. induction k as [|k IH]; intros x y H; cbn in H.
  - subst. auto.
  - destruct H as (z & Hz & H). apply HL in Hz. apply IH in H. lia.
Qed.

Lemma lang_bounds (r : regex) (x y : nat) :
  lang input r x y -> x <= y /\ (x <= len -> y <= len).
Proof.
  revert x y.
  induction r as [|p|r1 IH1 r2 IH2|r1 IH1 r2 IH2|greedy lo hi r1 IH| |];
    intros x y H; cbn [lang] in H.
  - subst. auto.
  - destruct H as (ch & Hch & _ & ->). apply (charAt_Some_lt input) in Hch. lia.
  - destruct H as (z & H1 & H2). apply IH1 in H1. apply IH2 in H2. lia.
  - destruct H as [H|H]; auto.
  - destruct H as (k & H & _). apply (iterLang_bounds _ IH) in H. exact H.
  - destruct H as [_ ->]. auto.
  - destruct H as [_ ->]. auto.
Qed.

Lemma matchAt_lang (r : regex) (i e : nat) :
  Matcher.matchAt input r i = Some e -> lang input r i e.
Proof.
  unfold Matcher.matchAt, Matcher.matcher. intros H.
  apply matcher_sound in H as (y & Hy & [= <-]). exact Hy.
Qed.

Lemma searchFrom_Some (r : regex) (n i a e : nat) :
  Matcher.searchFrom input r n i = Some (a, e) ->
  i <= a < i + n /\ Matcher.matchAt input r a = Some e.
Proof.
  revert i. induction n as [|n IH]; intros i H; cbn [Matcher.searchFrom] in H;
    [discriminate|].
  destruct (Matcher.matchAt input r i) as [e'|] eqn:Hm.
  - injection H as <- <-. split; [lia|exact Hm].
  - apply IH in H. destruct H as [H1 H2]. split; [lia|exact H2].
Qed.

Lemma firstMatch_lang (r : regex) (m0 : jsstring) :
  firstMatch r input = Some m0 ->
  exists i e, lang input r i e /\ i <= e <= len /\ m0 = substring input i e.
Proof.
  unfold firstMatch, Matcher.search. intros H.
  destruct (Matcher.searchFrom input r (S len) 0) as [[i e]|] eqn:Hs;
    [|discriminate].
  injection H as <-. apply searchFrom_Some in Hs as [Hi Hm].
  apply matchAt_lang in Hm. pose proof (lang_bounds _ _ _ Hm) as Hb.
  exists i, e. repeat split; auto; lia.
Qed.

Lemma substring_length (i e : nat) :
  e <= len -> List.length (substring input i e) = e - i.
Proof.
  intros H. unfold substring. rewrite length_firstn, length_skipn. lia.
Qed.

Lemma substring_nth (i e j : nat) :
  j < e - i -> nth_error (substring input i e) j = Matcher.charAt input (i + j).
Proof.
  intros H. unfold substring, Matcher.charAt.
  rewrite nth_error_firstn.
  destruct (Nat.ltb j (e - i)) eqn:Hlt;
    [|apply Nat.ltb_ge in Hlt; lia].
  apply nth_error_skipn.
Qed.

Lemma substring_nth_Some (i e j : nat) (a : char) :
  e <= len -> nth_error (substring input i e) j = Some a ->
  j < e - i /\ Matcher.charAt input (i + j) = Some a.
Proof.
  intros He H.
  assert (Hj : j < e - i).
  { rewrite <- (substring_length i e He). apply nth_error_Some. congruence. }
  split; [exact Hj|]. rewrite <- (substring_nth i e j Hj). exact H.
Qed.

Lemma lang_opt_Chr (p : char -> bool) (x y : nat) :
  lang input (opt (Chr p)) x y ->
  x = y \/ (y = S x /\ exists ch, Matcher.charAt input x = Some ch
                                  /\ p ch = true).
Proof.
  intros (k & Hk & Hle & _). destruct k as [|[|k]]; [| |lia]; cbn in Hk.
  - auto.
  - destruct Hk as (z & (ch & Hch & Hp & ->) & ->). right. eauto.
Qed.

Lemma iterLang_Chr (p : char -> bool) (k x y : nat) :
  iterLang (lang input (Chr p)) k x y ->
  y = x + k /\ forall j, j < k ->
    exists ch, Matcher.charAt input (x + j) = Some ch /\ p ch = true.
Proof.
  revert x. induction k as [|k IH]; intros x H; cbn [iterLang] in H.
  - subst. split; [lia|]. intros j Hj. lia.
  - destruct H as (z & (ch & Hch & Hp & ->) & H). apply IH in H as [-> H].
    split; [lia|]. intros [|j] Hj.
    + rewrite Nat.add_0_r. eauto.
    + replace (x + S j) with (S x + j) by lia. apply H. lia.
Qed.

Lemma lang_times_Chr (p : char -> bool) (lo hi x y : nat) :
  lo <= hi -> lang input (times lo hi (Chr p)) x y ->
  exists k, lo <= k <= hi /\ y = x + k
            /\ forall j, j < k ->
                 exists ch, Matcher.charAt input (x + j) = Some ch
                            /\ p ch = true.
Proof.
  intros Hlh (k & Hk & Hle & Hlo). apply iterLang_Chr in Hk as [-> Hk].
  exists k. repeat split; auto; lia.
Qed.

(** A match of one of the two unlabelled shapes has 3 to 6 code units, of
    which no two neighbours are both letters. *)
Lemma unlabelled_shape (i : nat) (shape : regex) (m0 : jsstring) :
  i < 2 -> nth_error numberPatterns i = Some shape ->
  firstMatch shape input = Some m0 ->
  lengthBetween 3 6 m0 = true /\ noLetterPair m0.
Proof.
  intros Hi Hshape Hm. apply firstMatch_lang in Hm as (x & y & H & Hxy & ->).
  unfold lengthBetween. rewrite substring_length by lia.
  destruct i as [|[|i]]; [| |lia]; cbn in Hshape; injection Hshape as <-.
  - cbn [lang] in H.
    destruct H as (z0 & [_ <-] & z1 & Hopt & z2 & Hdig & z3 & [_ <-] & <-).
    apply lang_times_Chr in Hdig as (k & Hk & -> & Hdig); [|lia].
    apply lang_opt_Chr in Hopt. split.
    + apply andb_true_iff. split; apply Nat.leb_le;
        destruct Hopt as [<-|[-> _]]; lia.
    + intros j a b Ha Hb.
      apply substring_nth_Some in Hb as [Hj Hb]; [|lia].
      right. destruct Hopt as [<-|[-> _]].
      * destruct (Hdig (S j)) as (ch & Hch & Hd); [lia|]. congruence.
      * destruct (Hdig j) as (ch & Hch & Hd); [lia|].
        replace (S x + j) with (x + S j) in Hch by lia. congruence.
  - cbn [lang] in H.
    destruct H as (z0 & [_ <-] & z1 & Hdig & z2 & Hopt & z3 & [_ <-] & <-).
    apply lang_times_Chr in Hdig as (k & Hk & -> & Hdig); [|lia].
    apply lang_opt_Chr in Hopt. split.
    + apply andb_true_iff. split; apply Nat.leb_le;
        destruct Hopt as [<-|[-> _]]; lia.
    + intros j a b Ha Hb.
      apply substring_nth_Some in Ha as [_ Ha]; [|lia].
      apply substring_nth_Some in Hb as [Hj Hb]; [|lia].
      left. destruct (Hdig j) as (ch & Hch & Hd);
        [destruct Hopt as [<-|[-> _]]; lia|]. congruence.
Qed.

End Shapes.

Lemma digit_not_letter_ci (a c : char) :
  isDigit c = true -> isDigit a = false -> ci (char_eqb a) c = false.
Proof.
  intros Hc Ha. unfold ci, upperChar, lowerChar.
  assert (Hl : isLower c = false).
  { unfold isDigit, isLower, in_range in *.
    apply andb_true_iff in Hc as [H1 H2]. apply N.leb_le in H1, H2.
    apply andb_false_iff. left. apply N.leb_gt. lia. }
  assert (Hu : isUpper c = false).
  { unfold isDigit, isUpper, in_range in *.
    apply andb_true_iff in Hc as [H1 H2]. apply N.leb_le in H1, H2.
    apply andb_false_iff. left. apply N.leb_gt. lia. }
  rewrite Hl, Hu. rewrite orb_diag. unfold char_eqb.
  apply N.eqb_neq. intros ->. congruence.
Qed.

Lemma lang_wordI (s w : jsstring) (x y : nat) :
  lang s (wordI w) x y ->
  y = x + List.length w
  /\ forall j a, nth_error w j = Some a ->
       exists ch, Matcher.charAt s (x + j) = Some ch
                  /\ ci (char_eqb a) ch = true.
Proof.
  unfold wordI, seq. revert x.
  induction w as [|a0 w IH]; intros x H; cbn [map fold_right lang] in H.
  - subst. split; [cbn; lia|]. intros [|j] a Ha; discriminate.
  - destruct H as (z & (ch & Hch & Hp & ->) & H). apply IH in H as [-> H].
    split; [cbn; lia|]. intros [|j] a Ha.
    + cbn in Ha. injection Ha as <-. rewrite Nat.add_0_r. eauto.
    + replace (x + S j) with (S x + j) by lia. apply H. exact Ha.
Qed.

(** A pattern that starts with two literal letters has no match in a
    string without two neighbouring letters. *)
Lemma two_letters_no_match (m w : jsstring) (a b : char) (rest : list regex) :
  noLetterPair m ->
  nth_error w 0 = Some a -> nth_error w 1 = Some b ->
  isDigit a = false -> isDigit b = false ->
  forall i, Matcher.matchAt m (seq (wordI w :: rest)) i = None.
Proof.
  intros Hm Ha Hb Hda Hdb i.
  destruct (Matcher.matchAt m (seq (wordI w :: rest)) i) as [e|] eqn:H;
    [|reflexivity].
  exfalso. apply matchAt_lang in H. destruct H as (z & H & _).
  apply lang_wordI in H as [_ H].
  destruct (H 0 a Ha) as (ca & Hca & Hpa).
  destruct (H 1 b Hb) as (cb & Hcb & Hpb).
  rewrite Nat.add_0_r in Hca. replace (i + 1) with (S i) in Hcb by lia.
  destruct (Hm i ca cb Hca Hcb) as [Hd|Hd].
  - rewrite (digit_not_letter_ci a ca Hd Hda) in Hpa. discriminate.
  - rewrite (digit_not_letter_ci b cb Hd Hdb) in Hpb. discriminate.
Qed.

Lemma skipn_nth_error {A : Type} (l : list A) (i : nat) :
  skipn i l = match nth_error l i with
              | Some a => a :: skipn (S i) l
              | None => []
              end.
Proof.
  revert i. induction l as [|x l IH]; intros [|i]; cbn; auto.
Qed.

Lemma replaceFrom_no_match (s : jsstring) (r : regex) (by_ : jsstring) :
  (forall i, Matcher.matchAt s r i = None) ->
  forall n i, Matcher.replaceFrom s r by_ n i 0 = firstn n (skipn i s).
Proof.
  intros Hno n. induction n as [|n IH]; intros i;
    cbn [Matcher.replaceFrom]; [reflexivity|].
  cbn [Nat.ltb Nat.leb]. rewrite Hno, IH, (skipn_nth_error s i).
  unfold Matcher.unitAt, Matcher.charAt.
  destruct (nth_error s i) as [a|] eqn:Ha; [reflexivity|].
  apply nth_error_None in Ha. rewrite skipn_all2 by lia.
  rewrite firstn_nil. reflexivity.
Qed.

Lemma replaceAll_no_match (s : jsstring) (r : regex) (by_ : jsstring) :
  (forall i, Matcher.matchAt s r i = None) -> replaceAll r by_ s = s.
Proof.
  intros Hno. unfold replaceAll. rewrite replaceFrom_no_match by exact Hno.
  cbn [skipn]. apply firstn_all2. lia.
Qed.

Lemma noLetterPair_strip (m : jsstring) :
  noLetterPair m -> stripNumberLabels m = m.
Proof.
  intros Hm. unfold stripNumberLabels.
  rewrite (replaceAll_no_match m patternLabel).
  - apply replaceAll_no_match.
    apply (two_letters_no_match m (str "No") 78 111); auto.
  - apply (two_letters_no_match m (str "Pattern") 80 97); auto.
Qed.

(** The first match of an unlabelled shape is never turned down. *)
Lemma unlabelled_shape_accepted (text : jsstring) (i : nat) (shape : regex)
    (m0 : jsstring) :
  i < 2 -> nth_error numberPatterns i = Some shape ->
  firstMatch shape text = Some m0 -> numberOk m0 = true.
Proof.
  intros Hi Hs Hm.
  destruct (unlabelled_shape text i shape m0 Hi Hs Hm) as [Hlen Hpair].
  unfold numberOk. rewrite (noLetterPair_strip m0 Hpair). exact Hlen.
Qed.

Lemma in_range_spec (lo hi c : char) :
  BoolSpec (lo <= c <= hi)%N (c < lo \/ hi < c)%N (in_range lo hi c).
Proof.
  unfold in_range.
  destruct (N.leb_spec lo c), (N.leb_spec c hi); constructor; lia.
Qed.

Ltac char_cases :=
  unfold ci, lowerUnit, lowerChar, upperChar, isLetter, isSpace, isUpper,
    isLower, isDigit, char_eqb;
  repeat match goal with
         | |- context [in_range ?lo ?hi ?c] =>
             destruct (in_range_spec lo hi c)
         | |- context [N.eqb ?a ?b] => destruct (N.eqb_spec a b)
         end;
  cbn [orb andb negb]; intros;
  try discriminate; try reflexivity; try (f_equal; lia); try lia.

Lemma ci_letter (a ch : char) :
  isLetter a = true -> ci (char_eqb a) ch = true ->
  lowerUnit ch = [lowerChar a] /\ isSpace ch = false
  /\ char_eqb 58 ch = false.
Proof.
  intros Ha Hc.
  assert (Hch : (65 <= ch <= 90 \/ 97 <= ch <= 122)%N
                /\ lowerChar ch = lowerChar a).
  { revert Ha Hc. char_cases. }
  destruct Hch as [Hr Hl]. repeat split.
  - rewrite <- Hl. revert Hr. char_cases.
  - revert Hr. char_cases.
  - revert Hr. char_cases.
Qed.

Lemma lower_letter (a : char) :
  isLetter a = true -> lowerUnit a = [lowerChar a].
Proof. char_cases. Qed.

Lemma spells_lower (w m : jsstring) :
  forallb isLetter w = true -> spells w m ->
  toLowerCase m = toLowerCase w.
Proof.
  intros Hw H. induction H as [|a ch w m Hc H IH]; [reflexivity|].
  cbn [forallb] in Hw. apply andb_true_iff in Hw as [Ha Hw].
  unfold toLowerCase in *. cbn [flat_map]. rewrite IH by exact Hw.
  destruct (ci_letter a ch Ha Hc) as (-> & _). rewrite (lower_letter a Ha).
  reflexivity.
Qed.

Lemma spells_no_space_colon (w m : jsstring) :
  forallb isLetter w = true -> spells w m ->
  Forall (fun ch => isSpace ch = false /\ char_eqb 58 ch = false) m.
Proof.
  intros Hw H. induction H as [|a ch w m Hc H IH]; constructor.
  - cbn [forallb] in Hw. apply andb_true_iff in Hw as [Ha Hw].
    destruct (ci_letter a ch Ha Hc) as (_ & H1 & H2). auto.
  - apply IH. cbn [forallb] in Hw. apply andb_true_iff in Hw as [_ Hw].
    exact Hw.
Qed.

Lemma trimStart_id (s : jsstring) :
  match s with
  | [] => True
  | c :: _ => isSpace c = false
  end -> trimStart s = s.
Proof. destruct s as [|c s]; cbn; [reflexivity|]. intros ->. reflexivity. Qed.

Lemma trim_no_space (s : jsstring) :
  Forall (fun ch => isSpace ch = false) s -> trim s = s.
Proof.
  intros H. unfold trim. rewrite (trimStart_id s).
  - rewrite (trimStart_id (rev s)); [apply rev_involutive|].
    apply Forall_rev in H. destruct H; auto.
  - destruct H; auto.
Qed.

Lemma lang_spells (s w : jsstring) (x y : nat) :
  lang s (wordI w) x y -> y <= List.length s ->
  y = x + List.length w /\ spells w (substring s x y).
Proof.
  unfold wordI, seq, spells. revert x.
  induction w as [|a0 w IH]; intros x H Hy; cbn [map fold_right lang] in H.
  - subst. split; [cbn; lia|]. unfold substring. rewrite Nat.sub_diag.
    constructor.
  - destruct H as (z & (ch & Hch & Hp & ->) & H).
    pose proof (lang_bounds s _ _ _ H) as Hb.
    apply IH in H as [-> H]; [|exact Hy]. split; [cbn; lia|].
    unfold substring in *. rewrite (skipn_nth_error s x).
    unfold Matcher.charAt in Hch. rewrite Hch.
    replace (S x + List.length w - x) with (S (S x + List.length w - S x))
      by lia.
    cbn [firstn]. constructor; assumption.
Qed.

(** No match of [/.*?:\s*/] in a string without a colon. *)
Lemma upToColon_no_match (m : jsstring) :
  Forall (fun ch => char_eqb 58 ch = false) m ->
  forall i, Matcher.matchAt m upToColon i = None.
Proof.
  intros Hm i.
  destruct (Matcher.matchAt m upToColon i) as [e|] eqn:H; [|reflexivity].
  exfalso. apply matchAt_lang in H.
  destruct H as (z & _ & z' & (ch & Hch & Hp & _) & _).
  unfold Matcher.charAt in Hch. apply nth_error_In in Hch.
  rewrite Forall_forall in Hm. rewrite (Hm ch Hch) in Hp. discriminate.
Qed.

Lemma spelled_word_normalizes (w m : jsstring) :
  In w difficultyWords -> spells w m -> difficultyOk m = true.
Proof.
  intros Hw Hm.
  assert (Hl : forallb isLetter w = true).
  { cbn in Hw. destruct Hw as [<-|[<-|[<-|[<-|[<-|[]]]]]]; reflexivity. }
  pose proof (spells_no_space_colon w m Hl Hm) as Hsc.
  unfold difficultyOk, difficultyOf.
  rewrite replaceAll_no_match
    by (apply upToColon_no_match; eapply Forall_impl; [|exact Hsc];
        cbn; tauto).
  rewrite trim_no_space
    by (eapply Forall_impl; [|exact Hsc]; cbn; tauto).
  unfold normalizeDifficulty. rewrite (spells_lower w m Hl Hm).
  cbn in Hw. destruct Hw as [<-|[<-|[<-|[<-|[<-|[]]]]]]; reflexivity.
Qed.

(** The first match of the pattern of the five difficulty words always
    normalizes. *)
Lemma difficulty_word_accepted (text : jsstring) (pattern : regex)
    (m0 : jsstring) :
  nth_error DIFFICULTY_PATTERNS 0 = Some pattern ->
  firstMatch pattern text = Some m0 -> difficultyOk m0 = true.
Proof.
  intros [= <-] Hm. apply firstMatch_lang in Hm as (x & y & H & Hxy & ->).
  cbn [lang seq fold_right alt fold_left] in H.
  destruct H as (z0 & [_ <-] & z1 & Hw & z2 & [_ <-] & <-).
  assert (Hsp : exists w, In w difficultyWords
                          /\ spells w (substring text x z1)).
  { destruct Hw as [[[[Hw|Hw]|Hw]|Hw]|Hw];
      apply lang_spells in Hw as [_ Hw]; try lia;
      eexists; (split; [|exact Hw]); cbn; auto 6. }
  destruct Hsp as (w & Hin & Hsp).
  exact (spelled_word_normalizes w _ Hin Hsp).
Qed.


(** ** Confidence *)

Lemma setIfTruthy_present (v : option jsstring) :
  truthy (setIfTruthy v) = Claimed.present (setIfTruthy v).
Proof.
  unfold setIfTruthy. destruct v as [[|c s]|]; reflexivity.
Qed.

Lemma extracted_fields_truthy (t : jsstring) :
  let d := extractStructuredData t in
  truthy (company d) = Claimed.present (company d)
  /\ truthy (patternNumber d) = Claimed.present (patternNumber d)
  /\ truthy (patternName d) = Claimed.present (patternName d)
  /\ truthy (sizeRange d) = Claimed.present (sizeRange d)
  /\ truthy (fabricType d) = Claimed.present (fabricType d)
  /\ truthy (difficulty d) = Claimed.present (difficulty d).
Proof.
  cbv zeta. unfold extractStructuredData. cbn [company patternNumber
    patternName sizeRange fabricType difficulty].
  repeat split; apply setIfTruthy_present.
Qed.

Ltac bool_cases :=
  repeat match goal with
         | |- context [truthy ?v] =>
             let b := fresh "b" in
             generalize (truthy v); intro b; destruct b
         | |- context [Claimed.present ?v] =>
             let b := fresh "b" in
             generalize (Claimed.present v); intro b; destruct b
         | |- context [Nat.ltb ?n ?m] =>
             let b := fresh "b" in
             generalize (Nat.ltb n m); intro b; destruct b
         end.

Lemma calculateConfidence_range (d : ExtractedData) (t : jsstring) :
  PrimFloat.leb 0.3 (calculateConfidence d t) = true
  /\ PrimFloat.leb (calculateConfidence d t) 1.0 = true.
Proof.
  unfold calculateConfidence. bool_cases; split; vm_compute; reflexivity.
Qed.

(** C1. For every text handed to the extractor, the confidence of the
    result lies between 0.3 and 1.0 (bounds included). *)
Theorem confidence_in_range (extractedText : jsstring) :
  PrimFloat.leb 0.3 (confidence (processOCR extractedText)) = true
  /\ PrimFloat.leb (confidence (processOCR extractedText)) 1.0 = true.
Proof.
  unfold processOCR. cbn [confidence]. apply calculateConfidence_range.
Qed.

Lemma calculateConfidence_formula (t : jsstring) (cleanText : jsstring) :
  calculateConfidence (extractStructuredData t) cleanText
  = Claimed.confidence (extractStructuredData t) (List.length cleanText).
Proof.
  destruct (extracted_fields_truthy t) as (H1 & H2 & H3 & H4 & H5 & H6).
  unfold calculateConfidence, Claimed.confidence, Claimed.fieldScore.
  rewrite H1, H2, H3, H4, H5, H6.
  bool_cases; vm_compute; reflexivity.
Qed.

(** C2. For every text, the confidence is the minimum of 1.0 and the sum,
    taken in this order, of the base 0.3, the weights 0.20, 0.20, 0.15,
    0.10, 0.05, 0.05 of the fields company, patternNumber, patternName,
    sizeRange, fabricType, difficulty that are present, 0.05 if the
    normalized text is longer than 50 code units and 0.05 more if it is
    longer than 100.  A normalized text of exactly 50 code units gets no
    length bonus, one of 51 gets one bonus of 0.05 and one of 101 gets
    both. *)
Theorem confidence_formula (extractedText : jsstring) :
  confidence (processOCR extractedText)
  = Claimed.confidence (extractedData (processOCR extractedText))
      (List.length (text (processOCR extractedText)))
  /\ (List.length (text (processOCR extractedText)) = 50 ->
      confidence (processOCR extractedText)
      = Math_min 1.0
          (Claimed.fieldScore (extractedData (processOCR extractedText))))
  /\ (List.length (text (processOCR extractedText)) = 51 ->
      confidence (processOCR extractedText)
      = Math_min 1.0
          (Claimed.fieldScore (extractedData (processOCR extractedText))
           + 0.05)%float)
  /\ (List.length (text (processOCR extractedText)) = 101 ->
      confidence (processOCR extractedText)
      = Math_min 1.0
          (Claimed.fieldScore (extractedData (processOCR extractedText))
           + 0.05 + 0.05)%float).
Proof.
  unfold processOCR. cbn [confidence extractedData text].
  rewrite calculateConfidence_formula.
  split; [reflexivity|].
  unfold Claimed.confidence, Claimed.fieldScore.
  repeat split; intros ->; cbn [Nat.ltb Nat.leb Claimed.weight];
    bool_cases; vm_compute; reflexivity.
Qed.

(** The three thresholds on texts of 50, 51 and 101 code units. *)
Lemma confidence_formula_witness :
  confidence
    (processOCR (str "Vogue 1234 tea dress in satin, sizes 8-16 easy fit"))
  = 1.0%float
  /\ confidence
       (processOCR (str "Burda 6789 wide skirt, sizes 10-18 for woven fabric"))
     = (0.3 + 0.2 + 0.2 + 0.1 + 0.05 + 0.05)%float
  /\ confidence
       (processOCR lawnDressText)
     = (0.3 + 0.2 + 0.2 + 0.1 + 0.05 + 0.05 + 0.05)%float.
Proof.
  split; [|split].
  - rewrite (proj1 (proj2 (confidence_formula
      (str "Vogue 1234 tea dress in satin, sizes 8-16 easy fit"))));
      vm_compute; reflexivity.
  - rewrite (proj1 (proj2 (proj2 (confidence_formula
      (str "Burda 6789 wide skirt, sizes 10-18 for woven fabric")))));
      vm_compute; reflexivity.
  - rewrite (proj2 (proj2 (proj2 (confidence_formula
      lawnDressText))));
      vm_compute; reflexivity.
Defined.

(** C3, as stated, fails: a normalized text of 71 code units in which no
    field is found gets the length bonus, so its confidence is not 0.3. *)
Lemma no_fields_confidence_above_base :
  noFields (extractedData (processOCR
    brightColdDayText))
  = true
  /\ PrimFloat.eqb
       (confidence (processOCR
         brightColdDayText))
       0.3 = false.
Proof. split; vm_compute; reflexivity. Qed.

Lemma cleanUp_empty_extract :
  extractStructuredData [] = mkData None None None None None None.
Proof. vm_compute. reflexivity. Qed.

(** C3, amended.  The extractor is a total function: every text (the empty
    one included) yields a result whose text is the normalized input.  When
    no field is found, the confidence is the base 0.3 plus the length
    bonuses (0.05 above 50 code units, 0.05 more above 100), hence exactly
    0.3 when the normalized text has at most 50 code units; a text that is
    empty after normalization has no field and confidence exactly 0.3. *)
Theorem no_fields_confidence (extractedText : jsstring) :
  text (processOCR extractedText) = cleanUp extractedText
  /\ (noFields (extractedData (processOCR extractedText)) = true ->
      confidence (processOCR extractedText)
      = baseWithBonus (List.length (text (processOCR extractedText)))
      /\ (List.length (text (processOCR extractedText)) <= 50 ->
          confidence (processOCR extractedText) = 0.3%float))
  /\ (cleanUp extractedText = [] ->
      extractedData (processOCR extractedText)
      = mkData None None None None None None
      /\ confidence (processOCR extractedText) = 0.3%float).
Proof.
  split; [reflexivity|]. split.
  - intros Hno.
    assert (Hconf : confidence (processOCR extractedText)
      = baseWithBonus (List.length (text (processOCR extractedText)))).
    { rewrite (proj1 (confidence_formula extractedText)).
      revert Hno. unfold noFields, Claimed.confidence, Claimed.fieldScore,
        baseWithBonus.
      generalize (extractedData (processOCR extractedText)) as d.
      intros d.
      destruct (Claimed.present (company d)); [discriminate|].
      destruct (Claimed.present (patternNumber d)); [discriminate|].
      destruct (Claimed.present (patternName d)); [discriminate|].
      destruct (Claimed.present (sizeRange d)); [discriminate|].
      destruct (Claimed.present (fabricType d)); [discriminate|].
      destruct (Claimed.present (difficulty d)); [discriminate|].
      intros _. bool_cases; vm_compute; reflexivity. }
    split; [exact Hconf|].
    intros Hlen. rewrite Hconf. unfold baseWithBonus.
    assert (H50 : Nat.ltb 50 (List.length (text (processOCR extractedText)))
                  = false) by (apply Nat.ltb_ge; exact Hlen).
    assert (H100 : Nat.ltb 100 (List.length (text (processOCR extractedText)))
                   = false) by (apply Nat.ltb_ge; lia).
    rewrite H50, H100. reflexivity.
  - intros Hempty. unfold processOCR.
    cbn [extractedData confidence]. rewrite Hempty.
    rewrite cleanUp_empty_extract. split; reflexivity.
Qed.

(** A short text without any field, and a text of white space only. *)
Lemma no_fields_confidence_witness :
  confidence (processOCR (str "  hello   world  ")) = 0.3%float
  /\ extractedData (processOCR (str "   "))
     = mkData None None None None None None.
Proof.
  split.
  - apply (proj1 (proj2 (no_fields_confidence (str "  hello   world  ")))).
    + vm_compute; reflexivity.
    + vm_compute; lia.
  - apply (proj2 (proj2 (no_fields_confidence (str "   ")))).
    vm_compute; reflexivity.
Defined.

(** The envelope text of the specification, through the whole extractor.
    The name found is what is left of the first 16 code units of the text
    (the capital-span match stops at the [r] of [Pattern]) once the
    company is stripped. *)
Example envelope_text :
  extractedData (processOCR (str
    "Simplicity Pattern #8234 Misses Wrap Dress Size 6-14 Cotton Intermediate"))
  = mkData (Some (str "Simplicity")) (Some (str "8234")) (Some (str "Patte"))
           (Some (str "6-14")) (Some (str "Cotton"))
           (Some (str "Intermediate"))
  /\ confidence (processOCR (str
       "Simplicity Pattern #8234 Misses Wrap Dress Size 6-14 Cotton Intermediate"))
     = 1.0%float.
Proof. split; vm_compute; reflexivity. Qed.

(** ** The pattern loop *)

Section PatternLoop.

Context {A : Type}.
Variable attempt : regex -> option A.

Lemma firstAccepted_Some (patterns : list regex) (v : A) :
  firstAccepted attempt patterns = Some v <->
  exists i pattern,
    nth_error patterns i = Some pattern /\ attempt pattern = Some v
    /\ forall j earlier, j < i -> nth_error patterns j = Some earlier ->
                         attempt earlier = None.
Proof.
  induction patterns as [|p rest IH]; cbn [firstAccepted].
  - split; [discriminate|]. intros (i & q & Hi & _). destruct i; discriminate.
  - destruct (attempt p) as [w|] eqn:Hp.
    + split.
      * intros [= <-]. exists 0, p. repeat split; auto. intros j q Hj. lia.
      * intros (i & q & Hi & Hq & Hbefore). destruct i as [|i].
        -- cbn in Hi. injection Hi as <-. congruence.
        -- specialize (Hbefore 0 p (Nat.lt_0_succ i) eq_refl). congruence.
    + rewrite IH. split.
      * intros (i & q & Hi & Hq & Hbefore). exists (S i), q.
        repeat split; auto. intros [|j] e Hj He.
        -- cbn in He. injection He as <-. exact Hp.
        -- apply (Hbefore j); [lia|exact He].
      * intros (i & q & Hi & Hq & Hbefore). destruct i as [|i].
        -- cbn in Hi. injection Hi as <-. congruence.
        -- exists i, q. repeat split; auto. intros j e Hj He.
           apply (Hbefore (S j)); [lia|exact He].
Qed.

Lemma firstAccepted_None (patterns : list regex) :
  firstAccepted attempt patterns = None <->
  forall pattern, In pattern patterns -> attempt pattern = None.
Proof.
  induction patterns as [|p rest IH]; cbn [firstAccepted].
  - split; [intros _ q []|reflexivity].
  - destruct (attempt p) as [w|] eqn:Hp.
    + split; [discriminate|]. intros H. specialize (H p (or_introl eq_refl)).
      congruence.
    + rewrite IH. split.
      * intros H q [<-|Hq]; auto.
      * intros H q Hq. apply H. right. exact Hq.
Qed.

(** When every attempt is a function of the first match of its pattern,
    the loop and the reading "first pattern that matches" agree as long
    as the first pattern that matches is not turned down. *)
Variable text : jsstring.
Variable finish : jsstring -> option A.
Hypothesis attempt_eq : forall pattern,
  attempt pattern = match firstMatch pattern text with
                    | Some m0 => finish m0
                    | None => None
                    end.

Lemma firstAccepted_firstMatching (patterns : list regex) :
  match Claimed.firstMatching text patterns with
  | Some m0 => finish m0 <> None -> firstAccepted attempt patterns = finish m0
  | None => firstAccepted attempt patterns = None
  end.
Proof.
  induction patterns as [|p rest IH];
    cbn [firstAccepted Claimed.firstMatching]; [reflexivity|].
  rewrite attempt_eq. destruct (firstMatch p text) as [m0|].
  - intros Hm. destruct (finish m0); [reflexivity|congruence].
  - exact IH.
Qed.

End PatternLoop.

Lemma toUpperCase_length (s : jsstring) :
  List.length (toUpperCase s) = List.length s.
Proof. apply length_map. Qed.

Lemma upperChar_idem (c : char) : upperChar (upperChar c) = upperChar c.
Proof.
  unfold upperChar. destruct (isLower c) eqn:Hl; [|rewrite Hl; reflexivity].
  replace (isLower (c - 32)) with false; [reflexivity|].
  unfold isLower, in_range in *. symmetry.
  apply andb_true_iff in Hl as [H1 H2].
  apply N.leb_le in H1, H2. apply andb_false_iff. left.
  apply N.leb_gt. lia.
Qed.

Lemma toUpperCase_idem (s : jsstring) :
  toUpperCase (toUpperCase s) = toUpperCase s.
Proof.
  unfold toUpperCase. rewrite map_map. apply map_ext. intros c.
  apply upperChar_idem.
Qed.

Lemma numberAttempt_Some (text : jsstring) (pattern : regex) (v : jsstring) :
  numberAttempt text pattern = Some v <->
  exists m0, firstMatch pattern text = Some m0 /\ numberOk m0 = true
             /\ v = toUpperCase (stripNumberLabels m0).
Proof.
  unfold numberAttempt, numberOk. destruct (firstMatch pattern text) as [m0|].
  - cbv zeta. destruct (lengthBetween 3 6 (stripNumberLabels m0)) eqn:Hl.
    + split.
      * intros [= <-]. exists m0. auto.
      * intros (m & [= <-] & _ & ->). reflexivity.
    + split; [discriminate|]. intros (m & [= <-] & H & _). congruence.
  - split; [discriminate|]. intros (m & H & _). discriminate.
Qed.

Lemma numberAttempt_None (text : jsstring) (pattern : regex) :
  numberAttempt text pattern = None <-> turnedDown numberOk text pattern.
Proof.
  unfold numberAttempt, turnedDown, numberOk.
  destruct (firstMatch pattern text) as [m0|]; [|tauto].
  cbv zeta. destruct (lengthBetween 3 6 (stripNumberLabels m0));
    split; congruence.
Qed.

(** C4, as stated, fails.  In this text the first shape with a match is the
    third one; its first match, [Pattern a12345b], strips to seven code
    units and is turned down, and the fourth shape then yields [123X],
    where the claim leaves the field absent. *)
Lemma patternNumber_next_shape_tried :
  extractPatternNumber (str "Pattern a12345b No. 123x") = Some (str "123X")
  /\ Claimed.patternNumber (str "Pattern a12345b No. 123x") = None.
Proof. split; vm_compute; reflexivity. Qed.

(** C4, amended.  Pattern-number extraction tries the shapes in priority
    order; for each shape with a match it takes the first match, strips the
    label text and accepts the result if it has 3 to 6 code units; the
    first shape so accepted gives the field, in uppercase; a shape whose
    first match is turned down is passed over and the next shape is tried,
    so the field is absent only when every shape has no match or is turned
    down.  A match of one of the two unlabelled shapes is never turned
    down.  Whenever the first shape with a match is accepted, or no shape
    matches, this is what the claim says. *)
Theorem patternNumber_by_priority (text : jsstring) :
  (forall v, extractPatternNumber text = Some v <->
     exists i shape m0,
       nth_error numberPatterns i = Some shape
       /\ firstMatch shape text = Some m0
       /\ numberOk m0 = true
       /\ v = toUpperCase (stripNumberLabels m0)
       /\ forall j earlier, j < i ->
            nth_error numberPatterns j = Some earlier ->
            turnedDown numberOk text earlier)
  /\ (extractPatternNumber text = None <->
      forall shape, In shape numberPatterns -> turnedDown numberOk text shape)
  /\ (forall v, extractPatternNumber text = Some v ->
        lengthBetween 3 6 v = true /\ toUpperCase v = v)
  /\ (forall i shape m0, i < 2 -> nth_error numberPatterns i = Some shape ->
        firstMatch shape text = Some m0 -> numberOk m0 = true)
  /\ match Claimed.firstMatching text numberPatterns with
     | Some m0 => numberOk m0 = true ->
                  extractPatternNumber text = Claimed.patternNumber text
     | None => extractPatternNumber text = None
     end.
Proof.
  assert (Hchar : forall v, extractPatternNumber text = Some v <->
     exists i shape m0,
       nth_error numberPatterns i = Some shape
       /\ firstMatch shape text = Some m0
       /\ numberOk m0 = true
       /\ v = toUpperCase (stripNumberLabels m0)
       /\ forall j earlier, j < i ->
            nth_error numberPatterns j = Some earlier ->
            turnedDown numberOk text earlier).
  { intros v. unfold extractPatternNumber. rewrite firstAccepted_Some. split.
    - intros (i & p & Hi & Hp & Hbefore).
      apply numberAttempt_Some in Hp as (m0 & Hm & Hok & ->).
      exists i, p, m0. repeat split; auto.
      intros j e Hj He. apply numberAttempt_None. eauto.
    - intros (i & p & m0 & Hi & Hm & Hok & -> & Hbefore).
      exists i, p. repeat split; auto.
      + apply numberAttempt_Some. eauto.
      + intros j e Hj He. apply numberAttempt_None. eauto. }
  split; [exact Hchar|]. split; [|split; [|split]].
  - unfold extractPatternNumber. rewrite firstAccepted_None.
    split; intros H p Hp; apply numberAttempt_None; auto.
  - intros v Hv. apply Hchar in Hv as (i & p & m0 & _ & _ & Hok & -> & _).
    unfold lengthBetween. rewrite toUpperCase_length, toUpperCase_idem.
    split; [exact Hok|reflexivity].
  - exact (unlabelled_shape_accepted text).
  - pose proof (firstAccepted_firstMatching (numberAttempt text) text
                  (fun m0 => if numberOk m0
                             then Some (toUpperCase (stripNumberLabels m0))
                             else None)
                  (fun p => eq_refl) numberPatterns) as H.
    unfold Claimed.patternNumber, extractPatternNumber.
    destruct (Claimed.firstMatching text numberPatterns) as [m0|];
      [|exact H].
    intros Hok. cbv zeta. fold (numberOk m0). rewrite H; rewrite Hok;
      [reflexivity|discriminate].
Qed.

(** The fourth shape gives the number once the third is turned down. *)
Lemma patternNumber_by_priority_witness :
  extractPatternNumber (str "Pattern a12345b No. 123x") = Some (str "123X").
Proof.
  apply (proj1 (patternNumber_by_priority (str "Pattern a12345b No. 123x"))).
  exists 3. eexists. exists (str "No. 123x").
  split; [reflexivity|].
  split; [vm_compute; reflexivity|].
  split; [vm_compute; reflexivity|].
  split; [vm_compute; reflexivity|].
  intros [|[|[|j]]] earlier Hj He; [| | |lia];
    cbn in He; injection He as <-; vm_compute;
    first [exact I | reflexivity].
Defined.

(** ** Difficulty *)

Lemma normalizeDifficulty_levels (s v : jsstring) :
  normalizeDifficulty s = Some v ->
  In v (map str ["Beginner"; "Intermediate"; "Advanced"; "Expert"]%string).
Proof.
  unfold normalizeDifficulty. cbv zeta.
  repeat match goal with
         | |- context [if ?b then _ else _] => destruct b
         end; intros [= <-]; cbn [map In]; auto.
Qed.

Lemma normalizeDifficulty_truthy (s : jsstring) :
  truthy (normalizeDifficulty s) = Claimed.present (normalizeDifficulty s).
Proof.
  destruct (normalizeDifficulty s) as [v|] eqn:H; [|reflexivity].
  apply normalizeDifficulty_levels in H. cbn [map In] in H.
  destruct H as [<-|[<-|[<-|[<-|[]]]]]; reflexivity.
Qed.

Lemma difficultyAttempt_eq (text : jsstring) (pattern : regex) :
  difficultyAttempt text pattern
  = match firstMatch pattern text with
    | Some m0 => difficultyOf m0
    | None => None
    end.
Proof.
  unfold difficultyAttempt, difficultyOf.
  destruct (firstMatch pattern text) as [m0|]; [|reflexivity].
  cbv zeta. rewrite normalizeDifficulty_truthy.
  destruct (normalizeDifficulty _); reflexivity.
Qed.

Lemma difficultyAttempt_Some (text : jsstring) (pattern : regex)
    (v : jsstring) :
  difficultyAttempt text pattern = Some v <->
  exists m0, firstMatch pattern text = Some m0 /\ difficultyOf m0 = Some v.
Proof.
  rewrite difficultyAttempt_eq. destruct (firstMatch pattern text) as [m0|].
  - split; [eauto|]. intros (m & [= <-] & H). exact H.
  - split; [discriminate|]. intros (m & H & _). discriminate.
Qed.

Lemma difficultyAttempt_None (text : jsstring) (pattern : regex) :
  difficultyAttempt text pattern = None
  <-> turnedDown difficultyOk text pattern.
Proof.
  rewrite difficultyAttempt_eq. unfold turnedDown, difficultyOk.
  destruct (firstMatch pattern text) as [m0|]; [|tauto].
  destruct (difficultyOf m0); cbn; split; congruence.
Qed.

(** C5, as stated, fails.  In this text the first pattern with a match is
    the second one; its match, [Level1], normalizes to none of the four
    levels, and the third pattern then yields Beginner from
    [Skill Level: easygoing], where the claim leaves the field absent. *)
Lemma difficulty_next_pattern_tried :
  extractDifficulty (str "Level1 Skill Level: easygoing")
  = Some (str "Beginner")
  /\ Claimed.difficulty (str "Level1 Skill Level: easygoing") = None.
Proof. split; vm_compute; reflexivity. Qed.

(** C5, amended.  The difficulty patterns are tried in order; the first
    match of a pattern, cut after its last label colon and trimmed, is
    normalized by the substring rules on its lower case (beginner, easy,
    level 1: Beginner; else intermediate, level 2: Intermediate; else
    advanced, level 3: Advanced; else expert, level 4: Expert; else
    nothing); a pattern whose first match normalizes to nothing is passed
    over and the next pattern is tried, so the field is absent only when
    every pattern has no match or a first match that normalizes to nothing.
    A match of the first pattern (one of the five difficulty words) always
    normalizes.  Whenever the first pattern with a match normalizes, or no
    pattern matches, this is what the claim says. *)
Theorem difficulty_by_priority (text : jsstring) :
  (forall v, extractDifficulty text = Some v <->
     exists i pattern m0,
       nth_error DIFFICULTY_PATTERNS i = Some pattern
       /\ firstMatch pattern text = Some m0
       /\ difficultyOf m0 = Some v
       /\ forall j earlier, j < i ->
            nth_error DIFFICULTY_PATTERNS j = Some earlier ->
            turnedDown difficultyOk text earlier)
  /\ (extractDifficulty text = None <->
      forall pattern, In pattern DIFFICULTY_PATTERNS ->
                      turnedDown difficultyOk text pattern)
  /\ (forall v, extractDifficulty text = Some v ->
        In v (map str
                ["Beginner"; "Intermediate"; "Advanced"; "Expert"]%string))
  /\ (forall s,
        let lower := toLowerCase s in
        let has := fun w => includes lower (str w) in
        normalizeDifficulty s =
          if has "beginner" || has "easy" || has "level 1"
          then Some (str "Beginner")
          else if has "intermediate" || has "level 2"
          then Some (str "Intermediate")
          else if has "advanced" || has "level 3"
          then Some (str "Advanced")
          else if has "expert" || has "level 4"
          then Some (str "Expert")
          else None)%string
  /\ (forall pattern m0, nth_error DIFFICULTY_PATTERNS 0 = Some pattern ->
        firstMatch pattern text = Some m0 -> difficultyOk m0 = true)
  /\ match Claimed.firstMatching text DIFFICULTY_PATTERNS with
     | Some m0 => difficultyOk m0 = true ->
                  extractDifficulty text = Claimed.difficulty text
     | None => extractDifficulty text = None
     end.
Proof.
  assert (Hchar : forall v, extractDifficulty text = Some v <->
     exists i pattern m0,
       nth_error DIFFICULTY_PATTERNS i = Some pattern
       /\ firstMatch pattern text = Some m0
       /\ difficultyOf m0 = Some v
       /\ forall j earlier, j < i ->
            nth_error DIFFICULTY_PATTERNS j = Some earlier ->
            turnedDown difficultyOk text earlier).
  { intros v. unfold extractDifficulty. rewrite firstAccepted_Some. split.
    - intros (i & p & Hi & Hp & Hbefore).
      apply difficultyAttempt_Some in Hp as (m0 & Hm & Hv).
      exists i, p, m0. repeat split; auto.
      intros j e Hj He. apply difficultyAttempt_None. eauto.
    - intros (i & p & m0 & Hi & Hm & Hv & Hbefore).
      exists i, p. repeat split; auto.
      + apply difficultyAttempt_Some. eauto.
      + intros j e Hj He. apply difficultyAttempt_None. eauto. }
  split; [exact Hchar|]. split; [|split; [|split; [|split]]].
  - unfold extractDifficulty. rewrite firstAccepted_None.
    split; intros H p Hp; apply difficultyAttempt_None; auto.
  - intros v Hv. apply Hchar in Hv as (i & p & m0 & _ & _ & Hv & _).
    apply normalizeDifficulty_levels in Hv. exact Hv.
  - intros s. reflexivity.
  - exact (difficulty_word_accepted text).
  - pose proof (firstAccepted_firstMatching (difficultyAttempt text) text
                  difficultyOf (difficultyAttempt_eq text)
                  DIFFICULTY_PATTERNS) as H.
    unfold Claimed.difficulty, extractDifficulty.
    destruct (Claimed.firstMatching text DIFFICULTY_PATTERNS) as [m0|];
      [|exact H].
    unfold difficultyOk. intros Hok. fold (difficultyOf m0). apply H.
    destruct (difficultyOf m0); [discriminate|discriminate].
Qed.

(** The third pattern gives the level once the second normalizes to
    nothing. *)
Lemma difficulty_by_priority_witness :
  extractDifficulty (str "Level1 Skill Level: easygoing")
  = Some (str "Beginner").
Proof.
  apply (proj1 (difficulty_by_priority (str "Level1 Skill Level: easygoing"))).
  exists 2. eexists. exists (str "Skill Level: easygoing").
  split; [reflexivity|].
  split; [vm_compute; reflexivity|].
  split; [vm_compute; reflexivity|].
  intros [|[|j]] earlier Hj He; [| |lia];
    cbn in He; injection He as <-; vm_compute;
    first [exact I | reflexivity].
Defined.

(** ** Pattern name *)

Lemma nameAttempt_Some (text : jsstring) (company : option jsstring)
    (pattern : regex) (v : jsstring) :
  nameAttempt text company pattern = Some v <->
  exists m0, firstMatch pattern text = Some m0 /\ nameOk company m0 = true
             /\ v = cleanName company m0.
Proof.
  unfold nameAttempt, nameOk. destruct (firstMatch pattern text) as [m0|].
  - cbv zeta. destruct (lengthBetween 5 50 (cleanName company m0)) eqn:Hl.
    + split.
      * intros [= <-]. exists m0. auto.
      * intros (m & [= <-] & _ & ->). reflexivity.
    + split; [discriminate|]. intros (m & [= <-] & H & _). congruence.
  - split; [discriminate|]. intros (m & H & _). discriminate.
Qed.

Lemma nameAttempt_None (text : jsstring) (company : option jsstring)
    (pattern : regex) :
  nameAttempt text company pattern = None
  <-> turnedDown (nameOk company) text pattern.
Proof.
  unfold nameAttempt, turnedDown, nameOk.
  destruct (firstMatch pattern text) as [m0|]; [|tauto].
  cbv zeta. destruct (lengthBetween 5 50 (cleanName company m0));
    split; congruence.
Qed.

(** C6, as stated, fails.  In this text the label pattern is the first one
    with a match, [Design: Misses Kids Boys]; cleaned, it is empty and is
    turned down, and the capital-span pattern then yields a name from the
    first 51 code units of the text, where the claim leaves the field
    absent. *)
Lemma patternName_next_pattern_tried :
  extractPatternName
    pajamaTopText
    None
  = Some (str "cozy pajama top with a yoke; full details belo")
  /\ Claimed.patternName
       pajamaTopText
       None
     = None.
Proof. split; vm_compute; reflexivity. Qed.

(** Where a span ends: the set written [[^\\n\\r]] in the literals of the
    source excludes the letters [n] and [r], so neither pattern finds ten
    code units to go on with in this text. *)
Example patternName_span_stops_at_n_r :
  extractPatternName (str "Design: Summer Dress") None = None.
Proof. vm_compute. reflexivity. Qed.

(** C6, amended.  Pattern-name extraction tries the label pattern and then
    the capital-span pattern; for each one with a match it takes the first
    match, strips the label prefixes, the qualifier words and, if a company
    was found, the standalone occurrences of its name, trimming after each
    step, and accepts the result if it has 5 to 50 code units; a pattern
    whose cleaned first match is turned down is passed over and the next
    one is tried, so the field is absent only when every pattern has no
    match or is turned down.  Whenever the first pattern with a match is
    accepted, or no pattern matches, this is what the claim says. *)
Theorem patternName_by_priority (text : jsstring) (company : option jsstring) :
  (forall v, extractPatternName text company = Some v <->
     exists i pattern m0,
       nth_error namePatterns i = Some pattern
       /\ firstMatch pattern text = Some m0
       /\ nameOk company m0 = true
       /\ v = cleanName company m0
       /\ forall j earlier, j < i -> nth_error namePatterns j = Some earlier ->
                            turnedDown (nameOk company) text earlier)
  /\ (extractPatternName text company = None <->
      forall pattern, In pattern namePatterns ->
                      turnedDown (nameOk company) text pattern)
  /\ (forall v, extractPatternName text company = Some v ->
        5 <= List.length v <= 50)
  /\ match Claimed.firstMatching text namePatterns with
     | Some m0 => nameOk company m0 = true ->
                  extractPatternName text company
                  = Claimed.patternName text company
     | None => extractPatternName text company = None
     end.
Proof.
  assert (Hchar : forall v, extractPatternName text company = Some v <->
     exists i pattern m0,
       nth_error namePatterns i = Some pattern
       /\ firstMatch pattern text = Some m0
       /\ nameOk company m0 = true
       /\ v = cleanName company m0
       /\ forall j earlier, j < i -> nth_error namePatterns j = Some earlier ->
                            turnedDown (nameOk company) text earlier).
  { intros v. unfold extractPatternName. rewrite firstAccepted_Some. split.
    - intros (i & p & Hi & Hp & Hbefore).
      apply nameAttempt_Some in Hp as (m0 & Hm & Hok & ->).
      exists i, p, m0. repeat split; auto.
      intros j e Hj He. apply nameAttempt_None. eauto.
    - intros (i & p & m0 & Hi & Hm & Hok & -> & Hbefore).
      exists i, p. repeat split; auto.
      + apply nameAttempt_Some. eauto.
      + intros j e Hj He. apply nameAttempt_None. eauto. }
  split; [exact Hchar|]. split; [|split].
  - unfold extractPatternName. rewrite firstAccepted_None.
    split; intros H p Hp; apply nameAttempt_None; auto.
  - intros v Hv. apply Hchar in Hv as (i & p & m0 & _ & _ & Hok & -> & _).
    unfold nameOk, lengthBetween in Hok.
    apply andb_true_iff in Hok as [H1 H2].
    apply Nat.leb_le in H1, H2. lia.
  - pose proof (firstAccepted_firstMatching (nameAttempt text company) text
                  (fun m0 => if nameOk company m0
                             then Some (cleanName company m0) else None)
                  (fun p => eq_refl) namePatterns) as H.
    unfold Claimed.patternName, extractPatternName.
    destruct (Claimed.firstMatching text namePatterns) as [m0|];
      [|exact H].
    intros Hok. cbv zeta. fold (nameOk company m0). rewrite H; rewrite Hok;
      [reflexivity|discriminate].
Qed.

(** The capital-span pattern gives the name once the label pattern is
    turned down. *)
Lemma patternName_by_priority_witness :
  extractPatternName
    pajamaTopText
    None
  = Some (str "cozy pajama top with a yoke; full details belo").
Proof.
  apply (proj1 (patternName_by_priority
    pajamaTopText
    None)).
  exists 1. eexists.
  exists (str "Kids cozy pajama top with a yoke; full details belo").
  split; [reflexivity|].
  split; [vm_compute; reflexivity|].
  split; [vm_compute; reflexivity|].
  split; [vm_compute; reflexivity|].
  intros [|j] earlier Hj He; [|lia].
  cbn in He; injection He as <-; vm_compute; reflexivity.
Defined.

(** ** Company *)

Lemma str_eqb_eq (a b : jsstring) : str_eqb a b = true <-> a = b.
Proof.
  revert b. induction a as [|x a IH]; intros [|y b]; cbn [str_eqb];
    try (split; [discriminate|discriminate]); [tauto|].
  rewrite andb_true_iff, IH. unfold char_eqb. rewrite N.eqb_eq.
  split; [intros [-> ->]; reflexivity|intros [= -> ->]; auto].
Qed.

Lemma arr_includes_In (l : list jsstring) (w : jsstring) :
  arr_includes l w = true <-> In w l.
Proof.
  unfold arr_includes. rewrite existsb_exists. split.
  - intros (x & Hx & Heq). apply str_eqb_eq in Heq. subst. exact Hx.
  - intros H. exists w. split; [exact H|]. apply str_eqb_eq. reflexivity.
Qed.

Lemma sharesWord_overlaps (text name : jsstring) :
  sharesWord (companyWords text) name = true <-> overlaps text name.
Proof.
  unfold sharesWord, overlaps. rewrite existsb_exists.
  split; intros (w & Hw & H); exists w; split; auto;
    apply arr_includes_In; exact H.
Qed.

Lemma sharesWord_not_overlaps (text name : jsstring) :
  sharesWord (companyWords text) name = false <-> ~ overlaps text name.
Proof.
  rewrite <- sharesWord_overlaps.
  destruct (sharesWord (companyWords text) name); split; congruence.
Qed.

Lemma find_first {A : Type} (f : A -> bool) (l : list A) (x : A) :
  find f l = Some x <->
  exists i, nth_error l i = Some x /\ f x = true
            /\ forall j y, j < i -> nth_error l j = Some y -> f y = false.
Proof.
  induction l as [|a l IH]; cbn [find].
  - split; [discriminate|]. intros ([|i] & Hi & _); discriminate.
  - destruct (f a) eqn:Ha.
    + split.
      * intros [= <-]. exists 0. repeat split; auto. intros j y Hj. lia.
      * intros ([|i] & Hi & Hx & Hbefore).
        -- cbn in Hi. congruence.
        -- specialize (Hbefore 0 a (Nat.lt_0_succ i) eq_refl). congruence.
    + rewrite IH. split.
      * intros (i & Hi & Hx & Hbefore). exists (S i). repeat split; auto.
        intros [|j] y Hj Hy.
        -- cbn in Hy. congruence.
        -- apply (Hbefore j); [lia|exact Hy].
      * intros ([|i] & Hi & Hx & Hbefore).
        -- cbn in Hi. congruence.
        -- exists i. repeat split; auto. intros j y Hj Hy.
           apply (Hbefore (S j)); [lia|exact Hy].
Qed.

Lemma find_none_iff {A : Type} (f : A -> bool) (l : list A) :
  find f l = None <-> forall x, In x l -> f x = false.
Proof.
  split; [apply find_none|]. induction l as [|a l IH]; [reflexivity|].
  intros H. cbn [find]. rewrite (H a (or_introl eq_refl)). apply IH.
  intros x Hx. apply H. right. exact Hx.
Qed.

Lemma extractCompany_fallback (text : jsstring) :
  noExactPhrase text ->
  extractCompany text = find (sharesWord (companyWords text)) PATTERN_COMPANIES.
Proof.
  unfold noExactPhrase, extractCompany. intros H.
  destruct (find _ PATTERN_COMPANIES) as [name|] eqn:Hf; [|reflexivity].
  apply find_some in Hf as [Hin Ht].
  assert (Hex : existsb (fun name => test (companyRegex name) text)
                  PATTERN_COMPANIES = true)
    by (apply existsb_exists; eauto).
  congruence.
Qed.

(** C8. When no catalog name occurs in the text as an exact phrase, the
    company is found by token overlap: the text and each catalog name are
    lower-cased and split on white space, and the result is the first
    entry, in catalog order, one of whose words is a token of the text
    (absent when there is none).  Hence, of two catalog entries that both
    overlap the text, the one listed later is chosen in no case: the
    result is the earlier one, unless an entry listed before both overlaps
    as well. *)
Theorem company_token_overlap (text : jsstring) :
  noExactPhrase text ->
  (forall c, extractCompany text = Some c <->
     exists i, nth_error PATTERN_COMPANIES i = Some c /\ overlaps text c
               /\ forall j earlier, j < i ->
                    nth_error PATTERN_COMPANIES j = Some earlier ->
                    ~ overlaps text earlier)
  /\ (extractCompany text = None <->
      forall name, In name PATTERN_COMPANIES -> ~ overlaps text name)
  /\ (forall i j ci cj, i < j ->
        nth_error PATTERN_COMPANIES i = Some ci ->
        nth_error PATTERN_COMPANIES j = Some cj ->
        overlaps text ci -> overlaps text cj ->
        (exists k c, k <= i /\ nth_error PATTERN_COMPANIES k = Some c
                     /\ extractCompany text = Some c)
        /\ ((forall h earlier, h < i ->
               nth_error PATTERN_COMPANIES h = Some earlier ->
               ~ overlaps text earlier) ->
            extractCompany text = Some ci)).
Proof.
  intros Hno. rewrite (extractCompany_fallback text Hno).
  assert (Hchar : forall c,
    find (sharesWord (companyWords text)) PATTERN_COMPANIES = Some c <->
     exists i, nth_error PATTERN_COMPANIES i = Some c /\ overlaps text c
               /\ forall j earlier, j < i ->
                    nth_error PATTERN_COMPANIES j = Some earlier ->
                    ~ overlaps text earlier).
  { intros c. rewrite find_first. split.
    - intros (i & Hi & Hc & Hbefore). exists i. repeat split; auto.
      + apply sharesWord_overlaps. exact Hc.
      + intros j e Hj He. apply sharesWord_not_overlaps. eauto.
    - intros (i & Hi & Hc & Hbefore). exists i. repeat split; auto.
      + apply sharesWord_overlaps. exact Hc.
      + intros j e Hj He. apply sharesWord_not_overlaps. eauto. }
  split; [exact Hchar|]. split.
  - rewrite find_none_iff.
    split; intros H name Hin; apply sharesWord_not_overlaps; auto.
  - intros i j ci cj Hij Hi Hj Hci Hcj. split.
    + case_eq (find (sharesWord (companyWords text)) PATTERN_COMPANIES);
        [intros c Hf|intros Hf].
      * pose proof Hf as Hf'. apply Hchar in Hf' as (k & Hk & Hc & Hbefore).
        exists k, c. repeat split; auto.
        destruct (Nat.le_gt_cases k i) as [Hle|Hgt]; [exact Hle|].
        exfalso. apply (Hbefore i ci Hgt Hi). exact Hci.
      * exfalso. rewrite find_none_iff in Hf.
        apply nth_error_In in Hi. specialize (Hf ci Hi).
        apply sharesWord_not_overlaps in Hf. contradiction.
    + intros Hbefore. apply Hchar. exists i. auto.
Qed.

(** [sew] comes first in the text, New Look comes first in the catalog. *)
Lemma company_token_overlap_witness :
  extractCompany (str "sew look") = Some (str "New Look").
Proof.
  refine (proj2 (proj2 (proj2 (company_token_overlap (str "sew look") _))
                   5 6 (str "New Look") (str "Kwik Sew") _ _ _ _ _) _).
  - vm_compute; reflexivity.
  - lia.
  - reflexivity.
  - reflexivity.
  - apply sharesWord_overlaps; vm_compute; reflexivity.
  - apply sharesWord_overlaps; vm_compute; reflexivity.
  - intros [|[|[|[|[|h]]]]] earlier Hh He; [| | | | |lia];
      cbn in He; injection He as <-;
      apply sharesWord_not_overlaps; vm_compute; reflexivity.
Defined.

(** ** Fabric type *)

Lemma searchFrom_finds (s : jsstring) (r : regex) (a e : nat) :
  Matcher.matchAt s r a = Some e ->
  forall n i, i <= a < i + n -> Matcher.searchFrom s r n i <> None.
Proof.
  intros Hm n. induction n as [|n IH]; intros i Hi; [lia|].
  cbn [Matcher.searchFrom].
  destruct (Matcher.matchAt s r i) as [e'|] eqn:Hi'; [discriminate|].
  apply IH. destruct (Nat.eq_dec i a) as [->|Hne]; [congruence|lia].
Qed.

Lemma matcher_wordI (s w : jsstring) (x : nat) (c : nat -> option nat) :
  x + List.length w <= List.length s ->
  spells w (substring s x (x + List.length w)) ->
  Matcher.matcher s (wordI w) x c = c (x + List.length w).
Proof.
  unfold wordI, seq, spells, Matcher.matcher. revert x.
  induction w as [|a w IH]; intros x Hx H;
    cbn [map fold_right Matcher.matcherWith List.length].
  - rewrite Nat.add_0_r. reflexivity.
  - cbn [List.length] in Hx, H. unfold substring in H.
    rewrite (skipn_nth_error s x) in H.
    destruct (nth_error s x) as [ch|] eqn:Hch.
    + replace (x + S (List.length w) - x)
        with (S (S x + List.length w - S x)) in H by lia.
      cbn [firstn] in H. inversion H as [|? ? ? ? Hc Hrest]; subst.
      unfold litI at 1. cbn [Matcher.matcherWith].
      unfold Matcher.charAt. rewrite Hch, Hc.
      rewrite IH; [f_equal; lia|lia|exact Hrest].
    + apply nth_error_None in Hch. lia.
Qed.

Lemma test_standalone (w text : jsstring) :
  test (standaloneRegex w) text = true <-> occursStandalone w text.
Proof.
  unfold test, Matcher.search, occursStandalone. split.
  - destruct (Matcher.searchFrom text (standaloneRegex w)
                (S (List.length text)) 0) as [[i e]|] eqn:Hs; [|discriminate].
    intros _. apply searchFrom_Some in Hs as [Hi Hm].
    apply matchAt_lang in Hm.
    destruct Hm as (z0 & [Hb0 <-] & z1 & Hw & z2 & [Hb1 <-] & <-).
    pose proof (lang_bounds text _ _ _ Hw) as Hb.
    apply lang_spells in Hw as [-> Hw]; [|lia].
    exists i. repeat split; auto. lia.
  - intros (i & Hi & Hsp & Hb0 & Hb1).
    assert (Hm : Matcher.matchAt text (standaloneRegex w) i
                 = Some (i + List.length w)).
    { unfold Matcher.matchAt, standaloneRegex, seq, Matcher.matcher.
      cbn [fold_right Matcher.matcherWith]. rewrite Hb0.
      change (Matcher.matcherWith text 0 (wordI w))
        with (Matcher.matcher text (wordI w)).
      rewrite matcher_wordI by assumption. rewrite Hb1. reflexivity. }
    pose proof (searchFrom_finds text _ i _ Hm (S (List.length text)) 0) as H.
    destruct (Matcher.searchFrom text (standaloneRegex w)
                (S (List.length text)) 0); [reflexivity|].
    exfalso. apply H; [lia|reflexivity].
Qed.

(** The catalog scan: the hits are the catalog terms that occur in the text
    as standalone words, in any case, and they come in catalog order. *)
Lemma catalogHits_standalone (text fabric : jsstring) :
  In fabric (catalogHits text)
  <-> In fabric FABRIC_TYPES /\ occursStandalone fabric text.
Proof.
  unfold catalogHits. rewrite filter_In, test_standalone. reflexivity.
Qed.

Example wool_inside_woolworth :
  ~ occursStandalone (str "Wool") (str "Woolworth")
  /\ extractFabricType (str "Woolworth") = None
  /\ extractFabricType (str "Woolworth wool-blend")
     = Some (str "Wool").
Proof.
  split; [|split; vm_compute; reflexivity].
  rewrite <- test_standalone. vm_compute. discriminate.
Qed.

(** C7 at a label written without a colon.  The catalog scan finds Silk
    and Velvet; the label scan then appends the whole first match of the
    [Fabric(s)] pattern, label included, since only text up to a colon is
    cut from it; the claim appends the span that follows the label.  In
    the second text the span after [Fabric:] stops at the letter [n]: the
    set written [[^\\n\\r]] in the literals of the source excludes
    backslash, [n] and [r], not line breaks. *)
Lemma fabricType_label_kept :
  (extractFabricType (str "Suggested fabrics velvet, silk")
   = Some (str "Silk, Velvet, fabrics velvet, silk")
   /\ Claimed.fabricType (str "Suggested fabrics velvet, silk")
      = Some (str "Silk, Velvet, velvet, silk"))
  /\ (extractFabricType (str "Fabric: Cotton blend")
      = Some (str "Cotton, Cotto")
      /\ Claimed.fabricType (str "Fabric: Cotton blend")
         = Some (str "Cotton, Cotton blend")).
Proof. repeat split; vm_compute; reflexivity. Qed.

(** ** White-space normalization *)

Lemma spanLen_skipn_le (s : jsstring) (p : char -> bool) (x : nat) :
  x <= List.length s -> x + spanLen p (skipn x s) <= List.length s.
Proof.
  revert x. induction s as [|c l IH]; intros [|x] Hx;
    cbn [skipn spanLen List.length] in *; try lia.
  - destruct (p c); [|lia]. specialize (IH 0). cbn [skipn] in IH. lia.
  - specialize (IH x). lia.
Qed.

Section Runs.
Variable s : jsstring.
Variable p : char -> bool.

Lemma skipn_charAt (x : nat) :
  skipn x s = match Matcher.charAt s x with
              | Some a => a :: skipn (S x) s
              | None => []
              end.
Proof. apply skipn_nth_error. Qed.

(** The greedy quantifier over one code-unit class, with the accepting
    continuation: it takes the whole run, up to the bound. *)
Lemma repeat_class (slack n lo x : nat) :
  lo <= n ->
  Matcher.repeatMatcher (Matcher.matcherWith s slack (Chr p)) true n lo x Some
  = if Nat.leb lo (Nat.min n (spanLen p (skipn x s)))
    then Some (x + Nat.min n (spanLen p (skipn x s)))
    else None.
Proof.
  revert lo x. induction n as [|n IH]; intros lo x Hlo.
  - assert (lo = 0) by lia. subst. cbn. rewrite Nat.add_0_r. reflexivity.
  - cbn [Matcher.repeatMatcher Matcher.matcherWith].
    rewrite (skipn_charAt x).
    destruct (Matcher.charAt s x) as [ch|] eqn:Hch; cbn [spanLen].
    + destruct (p ch) eqn:Hp.
      * replace (Nat.eqb (S x) x) with false
          by (symmetry; apply Nat.eqb_neq; lia).
        rewrite andb_false_r. rewrite IH by lia.
        cbn [Nat.min].
        destruct lo as [|lo]; cbn [Nat.eqb negb Nat.pred Nat.leb].
        -- cbn. f_equal. lia.
        -- destruct (Nat.leb lo (Nat.min n (spanLen p (skipn (S x) s))));
             [f_equal; lia|reflexivity].
      * rewrite Nat.min_0_r, Nat.add_0_r.
        destruct lo as [|lo]; reflexivity.
    + rewrite Nat.min_0_r, Nat.add_0_r. destruct lo as [|lo]; reflexivity.
Qed.

(** [/p+/] at position [x]: the run of [p] that starts there, if any. *)
Lemma plus_class_at (x : nat) :
  x <= List.length s ->
  Matcher.matchAt s (plus (Chr p)) x
  = match spanLen p (skipn x s) with
    | 0 => None
    | S k => Some (x + S k)
    end.
Proof.
  intros Hx. unfold Matcher.matchAt, Matcher.matcher, plus.
  change (Matcher.matcherWith s 0 (Rep true 1 None (Chr p)) x Some)
    with (Matcher.repeatMatcher (Matcher.matcherWith s 0 (Chr p)) true
            (Matcher.iterations s 0 1 None x) 1 x Some).
  unfold Matcher.iterations. rewrite repeat_class by lia.
  pose proof (spanLen_skipn_le s p x Hx) as Hle.
  rewrite Nat.min_r by lia.
  destruct (spanLen p (skipn x s)); reflexivity.
Qed.

End Runs.

Lemma spanLen_all (p : char -> bool) (l : jsstring) (k : nat) :
  k < spanLen p l -> exists c, nth_error l k = Some c /\ p c = true.
Proof.
  revert k. induction l as [|c l IH]; intros k H; cbn in H; [lia|].
  destruct (p c) eqn:Hp; [|lia]. destruct k as [|k]; cbn; eauto.
  apply IH. lia.
Qed.

Lemma spanLen_stop (p : char -> bool) (l : jsstring) (c : char) :
  nth_error l (spanLen p l) = Some c -> p c = false.
Proof.
  induction l as [|a l IH]; cbn; [discriminate|].
  destruct (p a) eqn:Hp; cbn; [exact IH|]. intros [= <-]. exact Hp.
Qed.

(** [replace(/\s+/g, ' ')] collapses every run of white space. *)
Lemma replaceFrom_collapse (s : jsstring) :
  forall n i skip, n + i = S (List.length s) ->
    (skip <= i \/
     (i < skip <= List.length s
      /\ (forall j c, i <= j < skip -> Matcher.charAt s j = Some c ->
                      isSpace c = true)
      /\ (forall c, Matcher.charAt s skip = Some c -> isSpace c = false))) ->
    Matcher.replaceFrom s whitespaceRun (str " ") n i skip
    = collapse (Nat.ltb i skip) (skipn i s).
Proof.
  induction n as [|n IH]; intros i skip Hn Hskip.
  { cbn [Matcher.replaceFrom]. rewrite skipn_all2 by lia.
    destruct (Nat.ltb i skip); reflexivity. }
  cbn [Matcher.replaceFrom].
  destruct (Nat.ltb i skip) eqn:Hlt.
  - apply Nat.ltb_lt in Hlt. destruct Hskip as [Hskip|(Hr & Hsp & Hend)]; [lia|].
    rewrite (skipn_charAt s i).
    destruct (Matcher.charAt s i) as [c|] eqn:Hc.
    + cbn [collapse]. rewrite (Hsp i c (conj (le_n i) Hlt) Hc). cbn [app].
      rewrite IH; [|lia|].
      * destruct (Nat.ltb (S i) skip) eqn:Hlt'; [reflexivity|].
        apply Nat.ltb_ge in Hlt'. assert (skip = S i) by lia. subst skip.
        rewrite (skipn_charAt s (S i)).
        destruct (Matcher.charAt s (S i)) as [c'|] eqn:Hc'; [|reflexivity].
        cbn [collapse]. rewrite (Hend c' eq_refl). reflexivity.
      * destruct (Nat.eq_dec skip (S i)) as [->|Hne]; [left; lia|].
        right. repeat split; auto; try lia.
        intros j c' Hj. apply Hsp. lia.
    + unfold Matcher.charAt in Hc. apply nth_error_None in Hc. lia.
  - apply Nat.ltb_ge in Hlt.
    unfold whitespaceRun, sp. rewrite plus_class_at by lia.
    rewrite (skipn_charAt s i).
    destruct (Matcher.charAt s i) as [c|] eqn:Hc.
    + cbn [spanLen collapse]. destruct (isSpace c) eqn:Hsc.
      * replace (Nat.eqb (i + S (spanLen isSpace (skipn (S i) s))) i)
          with false by (symmetry; apply Nat.eqb_neq; lia).
        cbn [app]. fold sp. fold whitespaceRun. rewrite IH; [|lia|].
        -- change (str " ") with [32%N]. cbn [app].
           set (e := i + S (spanLen isSpace (skipn (S i) s))).
           destruct (Nat.ltb (S i) e) eqn:He; [reflexivity|].
           apply Nat.ltb_ge in He.
           assert (Hz : spanLen isSpace (skipn (S i) s) = 0) by (unfold e in He; lia).
           rewrite (skipn_charAt s (S i)) in Hz |- *.
           destruct (Matcher.charAt s (S i)) as [c'|]; [|reflexivity].
           cbn [spanLen collapse] in *.
           destruct (isSpace c'); [discriminate|reflexivity].
        -- destruct (spanLen isSpace (skipn (S i) s)) as [|k] eqn:Hk;
             [left; lia|]. right.
           assert (Hi : S i <= List.length s)
             by (apply (charAt_Some_lt s) in Hc; lia).
           pose proof (spanLen_skipn_le s isSpace (S i) Hi) as Hle.
           rewrite Hk in Hle.
           repeat split; try lia.
           ++ intros j c' Hj Hc'.
              destruct (spanLen_all isSpace (skipn (S i) s) (j - S i))
                as (c'' & Hc'' & Hp); [rewrite Hk; lia|].
              rewrite nth_error_skipn in Hc''.
              replace (S i + (j - S i)) with j in Hc'' by lia.
              unfold Matcher.charAt in Hc'. congruence.
           ++ intros c' Hc'.
              apply (spanLen_stop isSpace (skipn (S i) s)).
              rewrite nth_error_skipn, Hk.
              replace (S i + S k) with (i + S (S k)) by lia. exact Hc'.
      * fold sp. fold whitespaceRun. unfold Matcher.unitAt. rewrite Hc.
        cbn [app]. rewrite IH; [|lia|left; lia].
        replace (Nat.ltb (S i) skip) with false
          by (symmetry; apply Nat.ltb_ge; lia).
        reflexivity.
    + cbn [spanLen collapse]. unfold Matcher.unitAt. rewrite Hc. cbn [app].
      fold sp. fold whitespaceRun.
      unfold Matcher.charAt in Hc. apply nth_error_None in Hc.
      assert (n = 0) by lia. subst n. reflexivity.
Qed.

Lemma replaceAll_collapse (s : jsstring) :
  replaceAll whitespaceRun (str " ") s = collapse false s.
Proof.
  unfold replaceAll.
  rewrite (replaceFrom_collapse s (S (List.length s)) 0 0); [reflexivity|lia|].
  left. lia.
Qed.

Lemma trimStart_startsClean (s : jsstring) : startsClean (trimStart s).
Proof.
  induction s as [|c s IH]; cbn; [exact I|].
  destruct (isSpace c) eqn:Hc; [exact IH|exact Hc].
Qed.

Lemma trimStart_clean (s : jsstring) : startsClean s -> trimStart s = s.
Proof. destruct s as [|c s]; cbn; [reflexivity|]. intros ->. reflexivity. Qed.

Lemma trimStart_suffix (s : jsstring) :
  exists p, s = p ++ trimStart s /\ Forall (fun c => isSpace c = true) p.
Proof.
  induction s as [|c s (p & Hp & Hall)]; cbn.
  - exists []. split; [reflexivity|constructor].
  - destruct (isSpace c) eqn:Hc.
    + exists (c :: p). split; [cbn; congruence|constructor; assumption].
    + exists []. split; [reflexivity|constructor].
Qed.

(** [trim s] is [s] without a prefix and a suffix of white space. *)
Lemma trim_middle (s : jsstring) :
  exists p q, s = p ++ trim s ++ q
              /\ Forall (fun c => isSpace c = true) p
              /\ Forall (fun c => isSpace c = true) q.
Proof.
  unfold trim. destruct (trimStart_suffix s) as (p & Hp & Hpa).
  destruct (trimStart_suffix (rev (trimStart s))) as (q & Hq & Hqa).
  exists p, (rev q). split; [|split; [exact Hpa|apply Forall_rev; exact Hqa]].
  rewrite <- rev_app_distr, <- Hq, rev_involutive. exact Hp.
Qed.

Lemma trim_startsClean (s : jsstring) :
  startsClean (trim s) /\ startsClean (rev (trim s)).
Proof.
  unfold trim. split.
  - pose proof (trimStart_startsClean s) as Ha.
    destruct (trimStart_suffix (rev (trimStart s))) as (q & Hq & _).
    apply (f_equal (@rev char)) in Hq.
    rewrite rev_involutive, rev_app_distr in Hq.
    destruct (rev (trimStart (rev (trimStart s)))) as [|x l]; [exact I|].
    rewrite Hq in Ha. exact Ha.
  - rewrite rev_involutive. apply trimStart_startsClean.
Qed.

Lemma trim_clean (s : jsstring) :
  startsClean s -> startsClean (rev s) -> trim s = s.
Proof.
  intros H1 H2. unfold trim.
  rewrite (trimStart_clean s H1), (trimStart_clean (rev s) H2).
  apply rev_involutive.
Qed.

Lemma singleSpaces_app (a b : jsstring) :
  singleSpaces (a ++ b) -> singleSpaces a /\ singleSpaces b.
Proof.
  induction a as [|c a IH]; cbn [app singleSpaces]; [auto|].
  intros [Hc H]. destruct (IH H) as [Ha Hb]. split; [|exact Hb].
  split; [|exact Ha]. intros Hs. destruct (Hc Hs) as [-> Hn].
  split; [reflexivity|]. destruct a; [exact I|exact Hn].
Qed.

Lemma collapse_true_startsClean (s : jsstring) : startsClean (collapse true s).
Proof.
  induction s as [|c s IH]; cbn; [exact I|].
  destruct (isSpace c) eqn:Hc; cbn; [exact IH|exact Hc].
Qed.

Lemma collapse_singleSpaces (b : bool) (s : jsstring) :
  singleSpaces (collapse b s).
Proof.
  revert b. induction s as [|c s IH]; intros b; cbn [collapse]; [exact I|].
  destruct (isSpace c) eqn:Hc.
  - destruct b; cbn [app]; [apply IH|]. cbn [singleSpaces]. split; [|apply IH].
    intros _. split; [reflexivity|].
    pose proof (collapse_true_startsClean s) as H.
    destruct (collapse true s); [exact I|exact H].
  - cbn [singleSpaces]. split; [|apply IH]. intros H. congruence.
Qed.

Lemma collapse_clean (b : bool) (s : jsstring) :
  singleSpaces s -> (b = true -> startsClean s) -> collapse b s = s.
Proof.
  revert b. induction s as [|c s IH]; intros b Hs Hb; [reflexivity|].
  cbn [collapse]. destruct Hs as [Hc Hs]. destruct (isSpace c) eqn:Hsc.
  - destruct b; [specialize (Hb eq_refl); cbn in Hb; congruence|].
    destruct (Hc eq_refl) as [-> Hn]. cbn [app]. f_equal.
    apply IH; [exact Hs|]. intros _. destruct s; [exact I|exact Hn].
  - f_equal. apply IH; [exact Hs|discriminate].
Qed.

Lemma collapse_filter (b : bool) (s : jsstring) :
  filter nonSpace (collapse b s) = filter nonSpace s.
Proof.
  revert b. induction s as [|c s IH]; intros b; [reflexivity|].
  cbn [collapse filter]. unfold nonSpace at 2. destruct (isSpace c) eqn:Hc.
  - cbn [negb]. rewrite filter_app, IH. destruct b; reflexivity.
  - cbn [negb filter]. unfold nonSpace at 1. rewrite Hc. cbn [negb].
    rewrite IH. reflexivity.
Qed.

Lemma filter_spaces (p : jsstring) :
  Forall (fun c => isSpace c = true) p -> filter nonSpace p = [].
Proof.
  induction 1 as [|c p Hc _ IH]; [reflexivity|].
  cbn. unfold nonSpace at 1. rewrite Hc. exact IH.
Qed.

Lemma collapse_length (b : bool) (s : jsstring) :
  List.length (collapse b s) <= List.length s.
Proof.
  revert b. induction s as [|c s IH]; intros b; cbn [collapse]; [lia|].
  destruct (isSpace c); [destruct b|]; cbn [app List.length].
  - specialize (IH true). lia.
  - specialize (IH true). lia.
  - specialize (IH false). lia.
Qed.

Lemma cleanUp_collapse (t : jsstring) : cleanUp t = trim (collapse false t).
Proof. unfold cleanUp. rewrite replaceAll_collapse. reflexivity. Qed.

(** The normalized text has single spaces only, and none at either end. *)
Lemma cleanUp_normal (t : jsstring) :
  singleSpaces (cleanUp t) /\ startsClean (cleanUp t)
  /\ startsClean (rev (cleanUp t)).
Proof.
  rewrite cleanUp_collapse.
  destruct (trim_middle (collapse false t)) as (p & q & Hpq & _).
  pose proof (collapse_singleSpaces false t) as Hs.
  rewrite Hpq in Hs. apply singleSpaces_app in Hs as [_ Hs].
  apply singleSpaces_app in Hs as [Hs _].
  destruct (trim_startsClean (collapse false t)) as [H1 H2].
  repeat split; auto.
Qed.

Lemma cleanUp_length (t : jsstring) :
  List.length (cleanUp t) <= List.length t.
Proof.
  rewrite cleanUp_collapse.
  destruct (trim_middle (collapse false t)) as (p & q & Hpq & _).
  pose proof (collapse_length false t) as Hl.
  rewrite Hpq in Hl. rewrite !length_app in Hl. lia.
Qed.

(** A text of that form is left as it is. *)
Lemma cleanUp_of_normal (s : jsstring) :
  singleSpaces s -> startsClean s -> startsClean (rev s) -> cleanUp s = s.
Proof.
  intros Hs H1 H2. rewrite cleanUp_collapse.
  rewrite (collapse_clean false _ Hs) by discriminate.
  apply trim_clean; assumption.
Qed.

Lemma cleanUp_fixed (t : jsstring) : cleanUp (cleanUp t) = cleanUp t.
Proof.
  destruct (cleanUp_normal t) as (Hs & H1 & H2).
  apply cleanUp_of_normal; assumption.
Qed.

(** The text [processOCR] works on and returns: its only white space is
    single spaces (U+0020) between other code units, none at either end,
    and it is no longer than the text that was read. *)
Theorem cleanUp_shape (extractedText : jsstring) :
  singleSpaces (cleanUp extractedText)
  /\ startsClean (cleanUp extractedText)
  /\ startsClean (rev (cleanUp extractedText))
  /\ List.length (cleanUp extractedText) <= List.length extractedText.
Proof.
  destruct (cleanUp_normal extractedText) as (Hs & H1 & H2).
  pose proof (cleanUp_length extractedText).
  repeat split; assumption.
Qed.

(** Normalizing a normalized text changes nothing, and neither does
    normalizing any text that already has that form. *)
Theorem cleanUp_idempotent (extractedText : jsstring) :
  cleanUp (cleanUp extractedText) = cleanUp extractedText
  /\ (singleSpaces extractedText -> startsClean extractedText ->
      startsClean (rev extractedText) ->
      cleanUp extractedText = extractedText).
Proof.
  split; [apply cleanUp_fixed|apply cleanUp_of_normal].
Qed.

Lemma cleanUp_idempotent_witness :
  cleanUp (str "Vogue 1234 Easy") = str "Vogue 1234 Easy".
Proof.
  apply (proj2 (cleanUp_idempotent (str "Vogue 1234 Easy")));
    vm_compute; intuition discriminate.
Defined.

(** Normalization removes white space only: the other code units are kept,
    in their order. *)
Theorem cleanUp_keeps_content (extractedText : jsstring) :
  filter nonSpace (cleanUp extractedText) = filter nonSpace extractedText.
Proof.
  rewrite cleanUp_collapse.
  destruct (trim_middle (collapse false extractedText))
    as (p & q & Hpq & Hp & Hq).
  rewrite <- (collapse_filter false extractedText).
  rewrite Hpq at 2. rewrite !filter_app.
  rewrite (filter_spaces p Hp), (filter_spaces q Hq), app_nil_r.
  reflexivity.
Qed.

(** Running the extractor on the text of one of its results gives that
    result again: text, fields and confidence. *)
Theorem processOCR_stable (extractedText : jsstring) :
  processOCR (text (processOCR extractedText)) = processOCR extractedText.
Proof.
  unfold processOCR. cbn [text]. rewrite cleanUp_fixed. reflexivity.
Qed.

(** ** What the fields hold *)

Lemma trim_idempotent (s : jsstring) : trim (trim s) = trim s.
Proof. destruct (trim_startsClean s). apply trim_clean; assumption. Qed.

Lemma setIfTruthy_Some (v : option jsstring) (x : jsstring) :
  setIfTruthy v = Some x -> v = Some x /\ x <> [].
Proof.
  unfold setIfTruthy. destruct v as [[|c s]|]; cbn; try discriminate.
  intros [= <-]. split; [reflexivity|discriminate].
Qed.

Lemma extractCompany_catalog (text c : jsstring) :
  extractCompany text = Some c -> In c PATTERN_COMPANIES.
Proof.
  unfold extractCompany.
  destruct (find _ PATTERN_COMPANIES) as [name|] eqn:Hf.
  - intros [= <-]. apply find_some in Hf. tauto.
  - intros H. apply find_some in H. tauto.
Qed.

Lemma sizeAttempt_Some (text : jsstring) (pattern : regex) (v : jsstring) :
  sizeAttempt text pattern = Some v ->
  exists m0, firstMatch pattern text = Some m0
             /\ v = trim (replaceAll sizeLabel [] m0)
             /\ lengthBetween 1 20 v = true.
Proof.
  unfold sizeAttempt. destruct (firstMatch pattern text) as [m0|];
    [|discriminate]. cbv zeta.
  destruct (lengthBetween 1 20 _) eqn:Hl; [|discriminate].
  intros [= <-]. eauto.
Qed.

Lemma cleanName_trimmed (company : option jsstring) (m0 : jsstring) :
  trim (cleanName company m0) = cleanName company m0.
Proof.
  unfold cleanName. cbv zeta. destruct (truthy company);
    [destruct company|]; apply trim_idempotent.
Qed.

(** The fields of a result keep to their formats: the company is a catalog
    name; the pattern number has 3 to 6 code units and is its own upper
    case; the pattern name has 5 to 50 code units and the size range 1 to
    20, both trimmed; the difficulty is one of the four levels; and no
    field that is present is the empty string. *)
Theorem extracted_fields_wellformed (text : jsstring) :
  (forall v, company (extractStructuredData text) = Some v ->
     In v PATTERN_COMPANIES)
  /\ (forall v, patternNumber (extractStructuredData text) = Some v ->
        3 <= List.length v <= 6 /\ toUpperCase v = v)
  /\ (forall v, patternName (extractStructuredData text) = Some v ->
        5 <= List.length v <= 50 /\ trim v = v)
  /\ (forall v, sizeRange (extractStructuredData text) = Some v ->
        1 <= List.length v <= 20 /\ trim v = v)
  /\ (forall v, difficulty (extractStructuredData text) = Some v ->
        In v (map str
                ["Beginner"; "Intermediate"; "Advanced"; "Expert"]%string))
  /\ (forall v, In (Some v)
                  [company (extractStructuredData text);
                   patternNumber (extractStructuredData text);
                   patternName (extractStructuredData text);
                   sizeRange (extractStructuredData text);
                   fabricType (extractStructuredData text);
                   difficulty (extractStructuredData text)] ->
        v <> []).
Proof.
  unfold extractStructuredData.
  cbn [company patternNumber patternName sizeRange fabricType difficulty].
  repeat match goal with |- _ /\ _ => split end; intros v H; repeat split.
  - apply setIfTruthy_Some in H as [H _].
    apply extractCompany_catalog in H. exact H.
  - apply setIfTruthy_Some in H as [H _]. unfold extractPatternNumber in H.
    apply firstAccepted_Some in H as (i & p & _ & H & _).
    apply numberAttempt_Some in H as (m0 & _ & Hok & ->).
    rewrite toUpperCase_length. unfold numberOk, lengthBetween in Hok.
    apply andb_true_iff in Hok as [H1 _]. apply Nat.leb_le in H1. exact H1.
  - apply setIfTruthy_Some in H as [H _]. unfold extractPatternNumber in H.
    apply firstAccepted_Some in H as (i & p & _ & H & _).
    apply numberAttempt_Some in H as (m0 & _ & Hok & ->).
    rewrite toUpperCase_length. unfold numberOk, lengthBetween in Hok.
    apply andb_true_iff in Hok as [_ H2]. apply Nat.leb_le in H2. exact H2.
  - apply setIfTruthy_Some in H as [H _]. unfold extractPatternNumber in H.
    apply firstAccepted_Some in H as (i & p & _ & H & _).
    apply numberAttempt_Some in H as (m0 & _ & _ & ->).
    apply toUpperCase_idem.
  - apply setIfTruthy_Some in H as [H _]. unfold extractPatternName in H.
    apply firstAccepted_Some in H as (i & p & _ & H & _).
    apply nameAttempt_Some in H as (m0 & _ & Hok & ->).
    unfold nameOk, lengthBetween in Hok.
    apply andb_true_iff in Hok as [H1 _]. apply Nat.leb_le in H1. exact H1.
  - apply setIfTruthy_Some in H as [H _]. unfold extractPatternName in H.
    apply firstAccepted_Some in H as (i & p & _ & H & _).
    apply nameAttempt_Some in H as (m0 & _ & Hok & ->).
    unfold nameOk, lengthBetween in Hok.
    apply andb_true_iff in Hok as [_ H2]. apply Nat.leb_le in H2. exact H2.
  - apply setIfTruthy_Some in H as [H _]. unfold extractPatternName in H.
    apply firstAccepted_Some in H as (i & p & _ & H & _).
    apply nameAttempt_Some in H as (m0 & _ & _ & ->).
    apply cleanName_trimmed.
  - apply setIfTruthy_Some in H as [H _]. unfold extractSizeRange in H.
    apply firstAccepted_Some in H as (i & p & _ & H & _).
    apply sizeAttempt_Some in H as (m0 & _ & _ & Hok).
    unfold lengthBetween in Hok.
    apply andb_true_iff in Hok as [H1 _]. apply Nat.leb_le in H1. exact H1.
  - apply setIfTruthy_Some in H as [H _]. unfold extractSizeRange in H.
    apply firstAccepted_Some in H as (i & p & _ & H & _).
    apply sizeAttempt_Some in H as (m0 & _ & _ & Hok).
    unfold lengthBetween in Hok.
    apply andb_true_iff in Hok as [_ H2]. apply Nat.leb_le in H2. exact H2.
  - apply setIfTruthy_Some in H as [H _]. unfold extractSizeRange in H.
    apply firstAccepted_Some in H as (i & p & _ & H & _).
    apply sizeAttempt_Some in H as (m0 & _ & -> & _).
    apply trim_idempotent.
  - apply setIfTruthy_Some in H as [H _]. unfold extractDifficulty in H.
    apply firstAccepted_Some in H as (i & p & _ & H & _).
    apply difficultyAttempt_Some in H as (m0 & _ & H).
    apply normalizeDifficulty_levels in H. exact H.
  - cbn [In] in H.
    destruct H as [H|[H|[H|[H|[H|[H|[]]]]]]];
      apply setIfTruthy_Some in H as [_ H]; exact H.
Qed.

Lemma extracted_fields_wellformed_witness :
  patternNumber (extractStructuredData lawnDressText) = Some (str "B6789")
  /\ (3 <= List.length (str "B6789") <= 6
      /\ toUpperCase (str "B6789") = str "B6789").
Proof.
  split; [vm_compute; reflexivity|].
  apply (proj1 (proj2 (extracted_fields_wellformed lawnDressText))).
  vm_compute; reflexivity.
Defined.

(** A match of an unlabelled shape holds digits and capital letters only. *)
Lemma unlabelled_shape_chars (text : jsstring) (i : nat) (shape : regex)
    (m0 : jsstring) :
  i < 2 -> nth_error numberPatterns i = Some shape ->
  firstMatch shape text = Some m0 ->
  Forall (fun c => isLower c = false) m0.
Proof.
  intros Hi Hshape Hm. apply firstMatch_lang in Hm as (x & y & H & Hxy & ->).
  assert (Hd : forall c, isDigit c = true -> isLower c = false).
  { intros c. char_cases. }
  assert (Hu : forall c, isUpper c = true -> isLower c = false).
  { intros c. char_cases. }
  apply Forall_forall. intros a Ha. apply In_nth_error in Ha as [j Ha].
  apply substring_nth_Some in Ha as [Hj Ha]; [|lia].
  destruct i as [|[|i]]; [| |lia]; cbn in Hshape; injection Hshape as <-;
    cbn [lang] in H.
  - destruct H as (z0 & [_ <-] & z1 & Hopt & z2 & Hdig & z3 & [_ <-] & <-).
    apply lang_times_Chr in Hdig as (k & Hk & -> & Hdig); [|lia].
    apply lang_opt_Chr in Hopt. destruct Hopt as [<-|[-> (ch & Hch & Hp)]].
    + destruct (Hdig j) as (c & Hc & Hdc); [lia|]. apply Hd. congruence.
    + destruct j as [|j].
      * rewrite Nat.add_0_r in Ha. apply Hu. congruence.
      * destruct (Hdig j) as (c & Hc & Hdc); [lia|].
        replace (S x + j) with (x + S j) in Hc by lia. apply Hd. congruence.
  - destruct H as (z0 & [_ <-] & z1 & Hdig & z2 & Hopt & z3 & [_ <-] & <-).
    apply lang_times_Chr in Hdig as (k & Hk & -> & Hdig); [|lia].
    apply lang_opt_Chr in Hopt. destruct Hopt as [<-|[-> (ch & Hch & Hp)]].
    + destruct (Hdig j) as (c & Hc & Hdc); [lia|]. apply Hd. congruence.
    + destruct (Nat.eq_dec j k) as [->|Hne].
      * apply Hu. congruence.
      * destruct (Hdig j) as (c & Hc & Hdc); [lia|]. apply Hd. congruence.
Qed.

Lemma toUpperCase_no_lower (m : jsstring) :
  Forall (fun c => isLower c = false) m -> toUpperCase m = m.
Proof.
  induction 1 as [|c m Hc _ IH]; [reflexivity|].
  unfold toUpperCase in *. cbn [map]. rewrite IH. unfold upperChar.
  rewrite Hc. reflexivity.
Qed.

Lemma numberAttempt_unlabelled (text : jsstring) (i : nat) (shape : regex)
    (m0 : jsstring) :
  i < 2 -> nth_error numberPatterns i = Some shape ->
  firstMatch shape text = Some m0 ->
  numberAttempt text shape = Some m0.
Proof.
  intros Hi Hs Hm. apply numberAttempt_Some. exists m0.
  destruct (unlabelled_shape text i shape m0 Hi Hs Hm) as [_ Hpair].
  split; [exact Hm|]. split; [exact (unlabelled_shape_accepted text i shape m0 Hi Hs Hm)|].
  rewrite (noLetterPair_strip m0 Hpair).
  symmetry. apply toUpperCase_no_lower.
  exact (unlabelled_shape_chars text i shape m0 Hi Hs Hm).
Qed.

(** A number written without a label is returned as it stands: the first
    match of the first unlabelled shape that has one. *)
Theorem unlabelled_number_verbatim (text : jsstring) :
  match firstMatch (nth 0 numberPatterns Eps) text with
  | Some m0 => extractPatternNumber text = Some m0
  | None =>
      match firstMatch (nth 1 numberPatterns Eps) text with
      | Some m1 => extractPatternNumber text = Some m1
      | None => True
      end
  end.
Proof.
  destruct (firstMatch (nth 0 numberPatterns Eps) text) as [m0|] eqn:H0.
  - unfold extractPatternNumber.
    change numberPatterns
      with (nth 0 numberPatterns Eps :: tl numberPatterns).
    cbn [firstAccepted].
    rewrite (numberAttempt_unlabelled text 0 _ m0); auto.
  - destruct (firstMatch (nth 1 numberPatterns Eps) text) as [m1|] eqn:H1;
      [|exact I].
    unfold extractPatternNumber.
    change numberPatterns
      with (nth 0 numberPatterns Eps :: nth 1 numberPatterns Eps
            :: tl (tl numberPatterns)).
    cbn [firstAccepted].
    replace (numberAttempt text (nth 0 numberPatterns Eps)) with (@None jsstring)
      by (unfold numberAttempt; rewrite H0; reflexivity).
    rewrite (numberAttempt_unlabelled text 1 _ m1); auto.
Qed.

Lemma no_i_no_label (m w : jsstring) (rest : list regex) :
  Forall (fun c => ci (char_eqb 105) c = false) m ->
  nth_error w 1 = Some 105%N ->
  forall i, Matcher.matchAt m (seq (wordI w :: rest)) i = None.
Proof.
  intros Hm Hw i.
  destruct (Matcher.matchAt m (seq (wordI w :: rest)) i) as [e|] eqn:H;
    [|reflexivity].
  exfalso. apply matchAt_lang in H. destruct H as (z & H & _).
  apply lang_wordI in H as [_ H]. destruct (H 1 _ Hw) as (c & Hc & Hp).
  unfold Matcher.charAt in Hc. apply nth_error_In in Hc.
  rewrite Forall_forall in Hm. rewrite (Hm c Hc) in Hp. discriminate.
Qed.

Lemma spelled_size_kept (w m : jsstring) :
  In w sizeWords -> spells w m ->
  trim (replaceAll sizeLabel [] m) = m /\ lengthBetween 1 20 m = true.
Proof.
  intros Hw Hm.
  assert (Hl : forallb isLetter w = true
               /\ forallb (fun a => negb (char_eqb (lowerChar a) 105)) w = true
               /\ lengthBetween 1 20 w = true).
  { cbn in Hw. destruct Hw as [<-|[<-|[<-|[<-|[<-|[<-|[]]]]]]];
      repeat split; reflexivity. }
  destruct Hl as (Hl & Hni & Hlen).
  assert (Hlm : List.length m = List.length w)
    by (symmetry; apply (Forall2_length Hm)).
  assert (Hi : Forall (fun c => ci (char_eqb 105) c = false) m).
  { clear Hlen Hlm Hw. induction Hm as [|a ch w m Hc Hm IH]; constructor.
    - cbn [forallb] in Hl, Hni.
      apply andb_true_iff in Hl as [Ha _]. apply andb_true_iff in Hni as [Hna _].
      destruct (ci (char_eqb 105) ch) eqn:Hci; [|reflexivity].
      exfalso. destruct (ci_letter a ch Ha Hc) as (H1 & _).
      destruct (ci_letter 105 ch eq_refl Hci) as (H2 & _).
      rewrite H1 in H2. injection H2 as H2. rewrite H2 in Hna. discriminate.
    - cbn [forallb] in Hl, Hni.
      apply andb_true_iff in Hl as [_ Hl]. apply andb_true_iff in Hni as [_ Hni].
      apply IH; assumption. }
  pose proof (spells_no_space_colon w m Hl Hm) as Hsc.
  split.
  - rewrite replaceAll_no_match
      by (apply (no_i_no_label m (str "Size")); [exact Hi|reflexivity]).
    apply trim_no_space. eapply Forall_impl; [|exact Hsc]. cbn. tauto.
  - unfold lengthBetween in *. rewrite Hlm. exact Hlen.
Qed.

(** A standalone size letter code has priority over every other size
    pattern and is returned as it stands, in the case it was written. *)
Theorem size_code_verbatim (text m0 : jsstring) :
  firstMatch (nth 0 SIZE_PATTERNS Eps) text = Some m0 ->
  extractSizeRange text = Some m0 /\ 1 <= List.length m0 <= 3.
Proof.
  intros Hm. pose proof Hm as Hm'.
  apply firstMatch_lang in Hm' as (x & y & H & Hxy & ->).
  cbn [nth SIZE_PATTERNS lang seq fold_right alt fold_left] in H.
  destruct H as (z0 & [_ <-] & z1 & Hw & z2 & [_ <-] & <-).
  assert (Hsp : exists w, In w sizeWords /\ spells w (substring text x z1)).
  { destruct Hw as [[[[[Hw|Hw]|Hw]|Hw]|Hw]|Hw];
      apply lang_spells in Hw as [_ Hw]; try lia;
      eexists; (split; [|exact Hw]); cbn; auto 7. }
  destruct Hsp as (w & Hin & Hsp).
  destruct (spelled_size_kept w _ Hin Hsp) as [Hk Hl]. split.
  - unfold extractSizeRange.
    change SIZE_PATTERNS with (nth 0 SIZE_PATTERNS Eps :: tl SIZE_PATTERNS).
    cbn [firstAccepted]. unfold sizeAttempt at 1. rewrite Hm. cbv zeta.
    rewrite Hk, Hl. reflexivity.
  - pose proof (Forall2_length Hsp) as Hlen. rewrite <- Hlen.
    cbn in Hin. destruct Hin as [<-|[<-|[<-|[<-|[<-|[<-|[]]]]]]]; cbn; lia.
Qed.

(** The [s] of a possessive is a standalone size code. *)
Lemma size_code_verbatim_witness :
  firstMatch (nth 0 SIZE_PATTERNS Eps)
    (str "McCall's 7890 Misses dress sizes 10-14") = Some (str "s")
  /\ extractSizeRange (str "McCall's 7890 Misses dress sizes 10-14")
     = Some (str "s")
  /\ 1 <= List.length (str "s") <= 3.
Proof.
  split; [vm_compute; reflexivity|].
  apply (size_code_verbatim _ (str "s")). vm_compute; reflexivity.
Defined.

(** ** Confidence: order and display *)

Lemma upward_spec (f : bool -> bool -> bool) :
  upward f = true -> forall a b, (a = true -> b = true) -> f a b = true.
Proof.
  unfold upward. intros H a b Hab.
  apply andb_true_iff in H as [H H3]. apply andb_true_iff in H as [H1 H2].
  destruct a, b; auto. specialize (Hab eq_refl). discriminate.
Qed.

Lemma scoreMonotone_true : scoreMonotone = true.
Proof. vm_compute. reflexivity. Qed.

Ltac step_up H Hx :=
  let H' := fresh in
  pose proof (upward_spec _ H _ _ Hx) as H'; cbv beta in H';
  clear H; rename H' into H.

(** Finding more never lowers the score: a result with at least the fields
    of another, on a text at least as long, has at least its confidence. *)
Theorem confidence_monotone (d d' : ExtractedData) (t t' : jsstring) :
  (truthy (company d) = true -> truthy (company d') = true) ->
  (truthy (patternNumber d) = true -> truthy (patternNumber d') = true) ->
  (truthy (patternName d) = true -> truthy (patternName d') = true) ->
  (truthy (sizeRange d) = true -> truthy (sizeRange d') = true) ->
  (truthy (fabricType d) = true -> truthy (fabricType d') = true) ->
  (truthy (difficulty d) = true -> truthy (difficulty d') = true) ->
  List.length t <= List.length t' ->
  PrimFloat.leb (calculateConfidence d t) (calculateConfidence d' t') = true.
Proof.
  intros Hc Hn Hm Hs Hf Hd Hlen.
  change (calculateConfidence d t)
    with (scoreOf (truthy (company d)) (truthy (patternNumber d))
            (truthy (patternName d)) (truthy (sizeRange d))
            (truthy (fabricType d)) (truthy (difficulty d))
            (Nat.ltb 50 (List.length t)) (Nat.ltb 100 (List.length t))).
  change (calculateConfidence d' t')
    with (scoreOf (truthy (company d')) (truthy (patternNumber d'))
            (truthy (patternName d')) (truthy (sizeRange d'))
            (truthy (fabricType d')) (truthy (difficulty d'))
            (Nat.ltb 50 (List.length t')) (Nat.ltb 100 (List.length t'))).
  assert (H1 : Nat.ltb 50 (List.length t) = true ->
               Nat.ltb 50 (List.length t') = true).
  { intros H. apply Nat.ltb_lt in H. apply Nat.ltb_lt. lia. }
  assert (H2 : Nat.ltb 100 (List.length t) = true ->
               Nat.ltb 100 (List.length t') = true).
  { intros H. apply Nat.ltb_lt in H. apply Nat.ltb_lt. lia. }
  pose proof scoreMonotone_true as H. unfold scoreMonotone in H.
  step_up H Hc. step_up H Hn. step_up H Hm. step_up H Hs. step_up H Hf.
  step_up H Hd. step_up H H1. step_up H H2. exact H.
Qed.

Lemma confidence_monotone_witness :
  PrimFloat.leb
    (calculateConfidence
       (mkData (Some (str "Vogue")) None None None None None) (str "Vogue"))
    (calculateConfidence (extractStructuredData lawnDressText) lawnDressText)
  = true.
Proof.
  apply confidence_monotone;
    try (intros H; vm_compute in H |- *; first [reflexivity|discriminate H]).
  apply Nat.leb_le. vm_compute; reflexivity.
Defined.

(** The percentage shown is the score in hundredths, computed exactly: a
    multiple of 5 from 30 to 100, whatever the rounding of the binary
    sums. *)
Theorem confidencePercent_exact (d : ExtractedData) (t : jsstring) :
  confidencePercent (calculateConfidence d t)
  = floatOfNat (percentPoints d (List.length t))
  /\ 30 <= percentPoints d (List.length t) <= 100
  /\ Nat.modulo (percentPoints d (List.length t)) 5 = 0.
Proof.
  unfold confidencePercent, calculateConfidence, percentPoints.
  repeat match goal with
         | |- context [truthy ?v] =>
             let b := fresh "b" in
             generalize (truthy v); intro b; destruct b
         | |- context [Nat.ltb ?n ?m] =>
             let b := fresh "b" in
             generalize (Nat.ltb n m); intro b; destruct b
         end;
    (split; [vm_compute; reflexivity|split; [cbn; lia|reflexivity]]).
Qed.

(** ** Company: the two passes *)

(** How a company is looked up.  The first catalog name that occurs in the
    text as an exact phrase is returned, whether or not a name listed
    before it shares a token with the text.  The company is absent exactly
    when no catalog name occurs as a phrase and none shares a token with
    the text. *)
Theorem company_lookup (text : jsstring) :
  (forall i name,
     nth_error PATTERN_COMPANIES i = Some name ->
     test (companyRegex name) text = true ->
     (forall j earlier, j < i -> nth_error PATTERN_COMPANIES j = Some earlier ->
                        test (companyRegex earlier) text = false) ->
     extractCompany text = Some name)
  /\ (extractCompany text = None <->
      forall name, In name PATTERN_COMPANIES ->
        test (companyRegex name) text = false /\ ~ overlaps text name).
Proof.
  split.
  - intros i name Hi Ht Hbefore. unfold extractCompany.
    destruct (find (fun name => test (companyRegex name) text)
                PATTERN_COMPANIES) as [c|] eqn:Hf.
    + apply find_first in Hf as (k & Hk & Hc & Hfirst). f_equal.
      destruct (Nat.lt_trichotomy k i) as [Hlt|[->|Hgt]].
      * specialize (Hbefore k c Hlt Hk). congruence.
      * congruence.
      * specialize (Hfirst i name Hgt Hi). congruence.
    + exfalso. rewrite find_none_iff in Hf. apply nth_error_In in Hi.
      specialize (Hf name Hi). cbv beta in Hf. congruence.
  - unfold extractCompany.
    destruct (find (fun name => test (companyRegex name) text)
                PATTERN_COMPANIES) as [c|] eqn:Hf.
    + split; [discriminate|]. intros H. apply find_some in Hf as [Hin Ht].
      destruct (H c Hin) as [Hn _]. cbv beta in Ht. congruence.
    + rewrite find_none_iff in Hf. rewrite find_none_iff. split.
      * intros H name Hin. split; [exact (Hf name Hin)|].
        apply sharesWord_not_overlaps. auto.
      * intros H name Hin. apply sharesWord_not_overlaps. apply H. exact Hin.
Qed.

(** [for] is a token of the text and a word of Patterns for Pirates,
    which comes before True Bias in the catalog; the phrase wins. *)
Lemma company_lookup_witness :
  In (str "for") (companyWords (str "True Bias skirt for girls"))
  /\ extractCompany (str "True Bias skirt for girls")
     = Some (str "True Bias").
Proof.
  split; [vm_compute; tauto|].
  apply (proj1 (company_lookup (str "True Bias skirt for girls")) 10).
  - reflexivity.
  - vm_compute; reflexivity.
  - intros j earlier Hj Hnth.
    do 10 (destruct j as [|j];
           [injection Hnth as <-; vm_compute; reflexivity|]).
    lia.
Defined.

(** ** Fabric type: what the result is made of *)

Lemma catalogHits_standalone_witness :
  In (str "Wool") FABRIC_TYPES
  /\ occursStandalone (str "Wool") (str "Woolworth wool-blend").
Proof.
  apply (proj1 (catalogHits_standalone (str "Woolworth wool-blend")
                  (str "Wool"))).
  vm_compute. tauto.
Defined.





(** With three catalog terms in the text, the result is the first three of
    them in catalog order, and nothing written after a label is part of
    it. *)
Theorem fabricType_three_catalog_terms (text : jsstring) :
  3 <= List.length (catalogHits text) ->
  extractFabricType text
  = Some (join (str ", ") (firstn 3 (catalogHits text))).
Proof.
  intros H. unfold extractFabricType. cbv zeta.
  rewrite firstn_app.
  replace (3 - List.length (catalogHits text)) with 0 by lia.
  cbn [firstn]. rewrite app_nil_r, length_app.
  destruct (catalogHits text) as [|a l]; cbn [List.length] in *; [lia|].
  reflexivity.
Qed.

Lemma fabricType_three_catalog_terms_witness :
  extractFabricType
    (str "Fabrics: silk, satin, cotton lawn or linen blends")
  = Some (str "Cotton, Linen, Silk").
Proof.
  rewrite (fabricType_three_catalog_terms
             (str "Fabrics: silk, satin, cotton lawn or linen blends")).
  - vm_compute; reflexivity.
  - apply Nat.leb_le. vm_compute; reflexivity.
Defined.

(** ** Form pre-fill *)

Import Form.

Lemma getField_setField_same (f : Field) (v : jsstring) (st : PatternFormData) :
  getField f (setField f v st) = v.
Proof. destruct f; reflexivity. Qed.

Lemma getField_setField_other (f g : Field) (v : jsstring)
    (st : PatternFormData) :
  f <> g -> getField g (setField f v st) = getField g st.
Proof. destruct f, g; intros H; try reflexivity; congruence. Qed.

Lemma runUpdaters_app (a b : list Updater) (st : PatternFormData) :
  runUpdaters (a ++ b) st = runUpdaters b (runUpdaters a st).
Proof. apply fold_left_app. Qed.

Lemma isEmpty_false (s : jsstring) : s <> [] -> isEmpty s = false.
Proof. destruct s; [congruence|reflexivity]. Qed.

(** A guarded write leaves every other field alone, and writes nothing when
    the value its guard reads is not empty. *)
Lemma fillIfEmpty_keeps (extracted : option jsstring) (current : jsstring)
    (f g : Field) (st : PatternFormData) :
  f <> g \/ current <> [] ->
  getField g (runUpdaters (fillIfEmpty extracted current f) st)
  = getField g st.
Proof.
  intros H. unfold fillIfEmpty. destruct extracted as [v|]; [|reflexivity].
  destruct (truthy (Some v) && isEmpty current) eqn:Hg; [|reflexivity].
  destruct H as [H|H].
  - apply getField_setField_other. exact H.
  - rewrite (isEmpty_false _ H), andb_false_r in Hg. discriminate.
Qed.

(** What the guards read is the captured [formData]: a field that is not
    empty there is not written, whatever the extractor returned. *)
Lemma autoFill_keeps_captured (formData st : PatternFormData)
    (ed : ExtractedData) (g : Field) :
  getField g formData <> [] ->
  getField g (runUpdaters (autoFill formData ed) st) = getField g st.
Proof.
  intros H. unfold autoFill. rewrite !runUpdaters_app.
  destruct g; cbn [getField] in H;
    repeat (rewrite fillIfEmpty_keeps;
            [|solve [left; discriminate | right; exact H]]);
    reflexivity.
Qed.

Lemma setPhoto_getField (type : PhotoType) (file : File)
    (st : PatternFormData) (g : Field) :
  getField g (setPhoto type file st) = getField g st.
Proof. destruct type, g; reflexivity. Qed.

Lemma difficultySet_nonempty (formData : PatternFormData) :
  difficultySet formData -> difficulty formData <> [].
Proof.
  unfold difficultySet, DIFFICULTIES. cbn [map In].
  intros [H|[H|[H|[H|[]]]]]; rewrite <- H; discriminate.
Qed.

Lemma removeNth_Forall {A : Type} (P : A -> Prop) (k : nat) (l : list A) :
  Forall P l -> Forall P (removeNth k l).
Proof.
  intros H. revert k. induction H as [|x l Hx Hl IH]; intros k.
  - destruct k; constructor.
  - destruct k; cbn [removeNth]; [exact Hl|]. constructor; auto.
Qed.

Lemma step_keeps_dialogInv (d d' : Dialog) (e : Event) :
  dialogInv d -> step d e = Some d' -> dialogInv d'.
Proof.
  intros [Hs Hf] Hstep. unfold dialogInv, difficultySet in *.
  destruct e as [f v|v|type file|k result|k|]; cbn [step] in Hstep.
  - destruct f; try discriminate; injection Hstep as <-;
      cbn [store inFlight]; split; auto.
  - destruct (arr_includes DIFFICULTIES v) eqn:Hv; [|discriminate].
    injection Hstep as <-. cbn [store inFlight]. split; [|exact Hf].
    apply arr_includes_In in Hv. exact Hv.
  - injection Hstep as <-. cbn [store inFlight]. split.
    + change (difficulty (setPhoto type file (store d)))
        with (getField FDifficulty (setPhoto type file (store d))).
      rewrite setPhoto_getField. exact Hs.
    + constructor; auto.
  - destruct (nth_error (inFlight d) k) as [formData|] eqn:Hk; [|discriminate].
    injection Hstep as <-. cbn [store inFlight]. split.
    + change (In (getField FDifficulty
                    (runUpdaters (autoFill formData (extractedData result))
                                 (store d))) DIFFICULTIES).
      rewrite autoFill_keeps_captured; [exact Hs|].
      apply difficultySet_nonempty. apply nth_error_In in Hk.
      rewrite Forall_forall in Hf. apply Hf. exact Hk.
    + apply removeNth_Forall. exact Hf.
  - destruct (nth_error (inFlight d) k); [|discriminate].
    injection Hstep as <-. cbn [store inFlight]. split; [exact Hs|].
    apply removeNth_Forall. exact Hf.
  - injection Hstep as <-. cbn [store inFlight]. split; [|exact Hf].
    cbn. auto.
Qed.

Lemma run_keeps_dialogInv (es : list Event) (d d' : Dialog) :
  dialogInv d -> run d es = Some d' -> dialogInv d'.
Proof.
  revert d. induction es as [|e es IH]; intros d Hinv Hrun; cbn [run] in Hrun.
  - injection Hrun as <-. exact Hinv.
  - destruct (step d e) as [d1|] eqn:Hstep; [|discriminate].
    apply (IH d1); [|exact Hrun].
    apply (step_keeps_dialogInv d d1 e); assumption.
Qed.

Lemma reachable_dialogInv (d : Dialog) : reachable d -> dialogInv d.
Proof.
  intros [es Hrun]. apply (run_keeps_dialogInv es initialDialog d);
    [|exact Hrun].
  split; [cbn; auto|constructor].
Qed.

(** C9 at a field typed while the OCR call is in flight.  The front photo
    is uploaded on the empty form, the user types a company, and the OCR
    result then arrives: the guard reads the [formData] captured when the
    upload started, finds the company empty there, and the queued update
    replaces the company the form holds. *)
Lemma prefill_overwrites_typed_field :
  option_map (fun d => patternCompany (store d))
    (run initialDialog
       [Uploaded Front 0; Typed FPatternCompany (str "Vogue")])
  = Some (str "Vogue")
  /\ option_map (fun d => patternCompany (store d))
       (run initialDialog
          [Uploaded Front 0; Typed FPatternCompany (str "Vogue");
           OcrDone 0 (processOCR (str "Simplicity 8234"))])
     = Some (str "Simplicity").
Proof. split; vm_compute; reflexivity. Qed.

(** C10. In every state the add-pattern dialog can reach, the difficulty
    of the form is one of the four values of the selector (Beginner at the
    start and after a reset), hence never the empty string; the guard of
    the difficulty pre-fill is false for every OCR call in flight; and the
    return of an OCR call leaves the difficulty of the form as it was,
    whatever difficulty the extractor returned. *)
Theorem difficulty_never_prefilled (d : Dialog) :
  reachable d ->
  In (difficulty (store d)) DIFFICULTIES
  /\ difficulty (store d) <> []
  /\ difficulty initialForm = str "Beginner"
  /\ (forall d', step d Reset = Some d' ->
        difficulty (store d') = str "Beginner")
  /\ (forall formData ed, In formData (inFlight d) ->
        fillIfEmpty (Ocr.difficulty ed) (difficulty formData) FDifficulty
        = [])
  /\ (forall k result d', step d (OcrDone k result) = Some d' ->
        difficulty (store d') = difficulty (store d)).
Proof.
  intros Hreach. destruct (reachable_dialogInv d Hreach) as [Hs Hf].
  split; [exact Hs|]. split; [apply difficultySet_nonempty; exact Hs|].
  split; [reflexivity|]. split; [|split].
  - intros d' Hstep. cbn [step] in Hstep. injection Hstep as <-.
    reflexivity.
  - intros formData ed Hin. rewrite Forall_forall in Hf.
    pose proof (difficultySet_nonempty formData (Hf formData Hin)) as Hne.
    unfold fillIfEmpty. destruct (Ocr.difficulty ed); [|reflexivity].
    rewrite (isEmpty_false _ Hne), andb_false_r. reflexivity.
  - intros k result d' Hstep. cbn [step] in Hstep.
    destruct (nth_error (inFlight d) k) as [formData|] eqn:Hk; [|discriminate].
    injection Hstep as <-. cbn [store].
    change (getField FDifficulty
              (runUpdaters (autoFill formData (extractedData result)) (store d))
            = getField FDifficulty (store d)).
    apply autoFill_keeps_captured. cbn [getField].
    apply difficultySet_nonempty. rewrite Forall_forall in Hf.
    apply Hf. apply nth_error_In in Hk. exact Hk.
Qed.

(** The extractor returns Intermediate; the form keeps Beginner. *)
Lemma difficulty_never_prefilled_witness :
  Ocr.difficulty
    (extractedData (processOCR (str "Vogue 1234 Intermediate")))
  = Some (str "Intermediate")
  /\ option_map (fun d => difficulty (store d))
       (step (mkDialog (setPhoto Front 0 initialForm) [initialForm])
             (OcrDone 0 (processOCR (str "Vogue 1234 Intermediate"))))
     = Some (str "Beginner").
Proof.
  split; [vm_compute; reflexivity|].
  destruct (step (mkDialog (setPhoto Front 0 initialForm) [initialForm])
                 (OcrDone 0 (processOCR (str "Vogue 1234 Intermediate"))))
    as [d'|] eqn:Hstep; [|vm_compute in Hstep; discriminate].
  cbn [option_map]. f_equal.
  rewrite (proj2 (proj2 (proj2 (proj2 (proj2
    (difficulty_never_prefilled
       (mkDialog (setPhoto Front 0 initialForm) [initialForm])
       (ex_intro _ [Uploaded Front 0] eq_refl))))))
    0 (processOCR (str "Vogue 1234 Intermediate")) d' Hstep).
  reflexivity.
Defined.

(** ** Merging a result and submitting the form *)

Lemma fillIfEmpty_same (extracted : option jsstring) (current : jsstring)
    (f : Field) (st : PatternFormData) :
  getField f (runUpdaters (fillIfEmpty extracted current f) st)
  = match extracted with
    | Some v => if truthy extracted && isEmpty current then v
                else getField f st
    | None => getField f st
    end.
Proof.
  unfold fillIfEmpty. destruct extracted as [v|]; [|reflexivity].
  destruct (truthy (Some v) && isEmpty current); [|reflexivity].
  apply getField_setField_same.
Qed.

Lemma setField_photos (f : Field) (v : jsstring) (st : PatternFormData) :
  frontPhoto (setField f v st) = frontPhoto st
  /\ backPhoto (setField f v st) = backPhoto st.
Proof. destruct f; split; reflexivity. Qed.

Lemma fillIfEmpty_photos (extracted : option jsstring) (current : jsstring)
    (f : Field) (st : PatternFormData) :
  frontPhoto (runUpdaters (fillIfEmpty extracted current f) st) = frontPhoto st
  /\ backPhoto (runUpdaters (fillIfEmpty extracted current f) st)
     = backPhoto st.
Proof.
  unfold fillIfEmpty. destruct extracted as [v|]; [|split; reflexivity].
  destruct (truthy (Some v) && isEmpty current); [|split; reflexivity].
  apply setField_photos.
Qed.

Lemma autoFill_photos (formData st : PatternFormData) (ed : ExtractedData) :
  frontPhoto (runUpdaters (autoFill formData ed) st) = frontPhoto st
  /\ backPhoto (runUpdaters (autoFill formData ed) st) = backPhoto st.
Proof.
  unfold autoFill. rewrite !runUpdaters_app.
  repeat match goal with
         | |- context [runUpdaters (fillIfEmpty ?e ?c ?f) ?s] =>
             rewrite (proj1 (fillIfEmpty_photos e c f s)),
                     (proj2 (fillIfEmpty_photos e c f s))
         end.
  split; reflexivity.
Qed.

Lemma autoFill_getField (formData st : PatternFormData) (ed : ExtractedData)
    (g : Field) :
  getField g (runUpdaters (autoFill formData ed) st)
  = mergedField g ed formData st.
Proof.
  unfold mergedField, autoFill. rewrite !runUpdaters_app.
  unfold Ocr.patternNumber, Ocr.patternName, Ocr.sizeRange, Ocr.fabricType,
    Ocr.difficulty, extractedFor.
  destruct g;
    repeat first [ rewrite fillIfEmpty_keeps by (left; discriminate)
                 | rewrite fillIfEmpty_same ];
    reflexivity.
Qed.

(** What the return of an OCR call does to the form: a field is replaced
    by the extracted value when the extractor returned one and the field
    was empty in the captured [formData], whatever the form holds by then;
    every other field, the notes and the photos stay as they are. *)
Theorem autoFill_effect (formData st : PatternFormData) (ed : ExtractedData)
    (g : Field) :
  getField g (runUpdaters (autoFill formData ed) st)
  = match extractedFor g ed with
    | Some v => if truthy (extractedFor g ed) && isEmpty (getField g formData)
                then v else getField g st
    | None => getField g st
    end
  /\ frontPhoto (runUpdaters (autoFill formData ed) st) = frontPhoto st
  /\ backPhoto (runUpdaters (autoFill formData ed) st) = backPhoto st.
Proof.
  split; [apply autoFill_getField|apply autoFill_photos].
Qed.

(** A reset does not cancel the OCR calls in flight: the result of a call
    that returns after the reset is merged into the fresh form, by the
    test on the form its handler closed over, and the form still has no
    photo. *)
Theorem late_result_fills_reset_form (d d' : Dialog) (k : nat)
    (result : OCRResult) (formData : PatternFormData) :
  nth_error (inFlight d) k = Some formData ->
  run d [Reset; OcrDone k result] = Some d' ->
  (forall g, getField g (store d')
             = mergedField g (extractedData result) formData initialForm)
  /\ noPhoto (store d')
  /\ inFlight d' = removeNth k (inFlight d).
Proof.
  intros Hk Hrun. cbn [run step inFlight store] in Hrun. rewrite Hk in Hrun.
  injection Hrun as <-. cbn [store inFlight].
  split; [intros g; apply autoFill_getField|]. split; [|reflexivity].
  destruct (autoFill_photos formData initialForm (extractedData result))
    as [H1 H2].
  split; [rewrite H1|rewrite H2]; reflexivity.
Qed.

(** A front photo is uploaded, the form is reset while its OCR call runs,
    and the result then puts its company into the fresh form. *)
Lemma late_result_fills_reset_form_witness :
  option_map (fun d' => patternCompany (store d'))
    (run initialDialog
       [Uploaded Front 0; Reset;
        OcrDone 0 (processOCR (str "Vogue 1234 Intermediate"))])
  = Some (str "Vogue").
Proof.
  change (run initialDialog
            [Uploaded Front 0; Reset;
             OcrDone 0 (processOCR (str "Vogue 1234 Intermediate"))])
    with (run (mkDialog (setPhoto Front 0 initialForm) [initialForm])
            [Reset; OcrDone 0 (processOCR (str "Vogue 1234 Intermediate"))]).
  destruct (run (mkDialog (setPhoto Front 0 initialForm) [initialForm])
              [Reset; OcrDone 0 (processOCR (str "Vogue 1234 Intermediate"))])
    as [d'|] eqn:Hrun; [|vm_compute in Hrun; discriminate].
  cbn [option_map]. f_equal.
  change (patternCompany (store d')) with (getField FPatternCompany (store d')).
  rewrite (proj1 (late_result_fills_reset_form
                    (mkDialog (setPhoto Front 0 initialForm) [initialForm])
                    d' 0 (processOCR (str "Vogue 1234 Intermediate"))
                    initialForm eq_refl Hrun) FPatternCompany).
  vm_compute; reflexivity.
Defined.

Lemma stored_confidence (d : ExtractedData) (t : jsstring) :
  Submit.numberOrNull (calculateConfidence d t)
  = Some (calculateConfidence d t).
Proof.
  unfold calculateConfidence. bool_cases; vm_compute; reflexivity.
Qed.

(** The OCR columns of a submitted record: a stored result never loses its
    confidence to [|| null] (the score is never zero), and its text is
    stored unless the normalized text is empty. *)
Theorem submitted_ocr_columns (o : Submit.Outside) (formData : PatternFormData)
    (ocrResults : Submit.OcrResults) (record : Submit.NewPattern) :
  Submit.handleSubmit o formData ocrResults = Some record ->
  (forall t, Submit.front ocrResults = Some (processOCR t) ->
     Submit.frontOcrConfidence record = Some (confidence (processOCR t))
     /\ Submit.frontOcrText record
        = if isEmpty (cleanUp t) then None else Some (cleanUp t))
  /\ (forall t, Submit.back ocrResults = Some (processOCR t) ->
        Submit.backOcrConfidence record = Some (confidence (processOCR t))
        /\ Submit.backOcrText record
           = if isEmpty (cleanUp t) then None else Some (cleanUp t))
  /\ (Submit.front ocrResults = None ->
        Submit.frontOcrConfidence record = None
        /\ Submit.frontOcrText record = None)
  /\ (Submit.back ocrResults = None ->
        Submit.backOcrConfidence record = None
        /\ Submit.backOcrText record = None).
Proof.
  unfold Submit.handleSubmit. intros H.
  assert (Hrec : Submit.frontOcrText record
                 = Submit.ocrText (Submit.front ocrResults)
                 /\ Submit.backOcrText record
                    = Submit.ocrText (Submit.back ocrResults)
                 /\ Submit.frontOcrConfidence record
                    = Submit.ocrConfidence (Submit.front ocrResults)
                 /\ Submit.backOcrConfidence record
                    = Submit.ocrConfidence (Submit.back ocrResults)).
  { destruct (frontPhoto formData), (backPhoto formData);
      try discriminate; injection H as <-; repeat split. }
  destruct Hrec as (-> & -> & -> & ->).
  split; [|split; [|split]].
  - intros t ->. unfold Submit.ocrConfidence, Submit.ocrText, processOCR.
    cbn [confidence text]. split; [apply stored_confidence|reflexivity].
  - intros t ->. unfold Submit.ocrConfidence, Submit.ocrText, processOCR.
    cbn [confidence text]. split; [apply stored_confidence|reflexivity].
  - intros ->. split; reflexivity.
  - intros ->. split; reflexivity.
Qed.

Lemma submitted_ocr_columns_witness :
  exists record,
    Submit.handleSubmit sampleOutside (setPhoto Front 0 initialForm)
      (Submit.mkOcr (Some (processOCR (str "Vogue 1234 Intermediate"))) None)
    = Some record
    /\ Submit.frontOcrConfidence record
       = Some (confidence (processOCR (str "Vogue 1234 Intermediate")))
    /\ Submit.backOcrConfidence record = None.
Proof.
  destruct (Submit.handleSubmit sampleOutside (setPhoto Front 0 initialForm)
              (Submit.mkOcr
                 (Some (processOCR (str "Vogue 1234 Intermediate"))) None))
    as [record|] eqn:H; [|vm_compute in H; discriminate].
  exists record. split; [reflexivity|].
  pose proof (submitted_ocr_columns _ _ _ _ H) as (Hfront & _ & _ & Hback).
  split.
  - apply (Hfront (str "Vogue 1234 Intermediate")). reflexivity.
  - apply Hback. reflexivity.
Defined.

Lemma orNull_Some (s x : jsstring) :
  Submit.orNull s = Some x -> x = s /\ x <> [].
Proof.
  unfold Submit.orNull. destruct s; cbn; [discriminate|].
  intros [= <-]. split; [reflexivity|discriminate].
Qed.

(** The record of a form the dialog can reach: its difficulty is one of
    the four levels, it has a photo, and none of its optional columns
    taken from the form holds the empty string. *)
Theorem submitted_record_wellformed (o : Submit.Outside) (d : Dialog)
    (ocrResults : Submit.OcrResults) (record : Submit.NewPattern) :
  reachable d ->
  Submit.handleSubmit o (store d) ocrResults = Some record ->
  In (Submit.difficulty record) DIFFICULTIES
  /\ (frontPhoto (store d) <> None \/ backPhoto (store d) <> None)
  /\ (forall v, In (Some v)
                  [Submit.patternName record; Submit.patternCompany record;
                   Submit.patternNumber record; Submit.sizeRange record;
                   Submit.fabricType record; Submit.notes record;
                   Submit.frontPhotoUrl record; Submit.backPhotoUrl record;
                   Submit.frontOcrText record; Submit.backOcrText record] ->
        v <> []).
Proof.
  intros Hreach H. destruct (reachable_dialogInv d Hreach) as [Hd _].
  unfold Submit.handleSubmit in H.
  assert (Hphoto : frontPhoto (store d) <> None \/ backPhoto (store d) <> None).
  { destruct (frontPhoto (store d)), (backPhoto (store d));
      try discriminate; [left|left|right]; discriminate. }
  assert (Hrec : record
    = Submit.mkNewPattern (Submit.patternId o) (Submit.user o)
        (Submit.orNull (patternName (store d)))
        (Submit.orNull (patternCompany (store d)))
        (Submit.orNull (patternNumber (store d)))
        (Submit.orNull (sizeRange (store d)))
        (difficulty (store d))
        (Submit.orNull (fabricType (store d)))
        (Submit.orNull (notes (store d)))
        (Submit.orNull (Submit.uploadedUrl o Front (frontPhoto (store d))))
        (Submit.orNull (Submit.uploadedUrl o Back (backPhoto (store d))))
        (Submit.ocrText (Submit.front ocrResults))
        (Submit.ocrText (Submit.back ocrResults))
        (Submit.ocrConfidence (Submit.front ocrResults))
        (Submit.ocrConfidence (Submit.back ocrResults))
        (Submit.now1 o) (Submit.now2 o)).
  { destruct (frontPhoto (store d)), (backPhoto (store d));
      try discriminate; injection H as <-; reflexivity. }
  subst record. cbn [Submit.difficulty Submit.patternName
    Submit.patternCompany Submit.patternNumber Submit.sizeRange
    Submit.fabricType Submit.notes Submit.frontPhotoUrl Submit.backPhotoUrl
    Submit.frontOcrText Submit.backOcrText In].
  split; [exact Hd|]. split; [exact Hphoto|]. clear Hphoto.
  intros v Hv.
  repeat match goal with
         | H : _ \/ _ |- _ => destruct H as [H|H]
         end; try contradiction;
    try (apply orNull_Some in Hv; tauto).
  - revert Hv. unfold Submit.ocrText. destruct (Submit.front ocrResults);
      [intros Hv; apply orNull_Some in Hv; tauto|discriminate].
  - revert Hv. unfold Submit.ocrText. destruct (Submit.back ocrResults);
      [intros Hv; apply orNull_Some in Hv; tauto|discriminate].
Qed.

Lemma submitted_record_wellformed_witness :
  exists record,
    Submit.handleSubmit sampleOutside
      (store (mkDialog (setPhoto Front 0 initialForm) [initialForm]))
      (Submit.mkOcr None None)
    = Some record
    /\ In (Submit.difficulty record) DIFFICULTIES.
Proof.
  destruct (Submit.handleSubmit sampleOutside
              (store (mkDialog (setPhoto Front 0 initialForm) [initialForm]))
              (Submit.mkOcr None None))
    as [record|] eqn:H; [|vm_compute in H; discriminate].
  exists record. split; [reflexivity|].
  apply (submitted_record_wellformed sampleOutside
           (mkDialog (setPhoto Front 0 initialForm) [initialForm])
           (Submit.mkOcr None None) record
           (ex_intro _ [Uploaded Front 0] eq_refl) H).
Defined.

Lemma step_keeps_noPhoto (d d' : Dialog) (e : Event) :
  isUpload e = false -> noPhoto (store d) -> step d e = Some d' ->
  noPhoto (store d').
Proof.
  unfold noPhoto. intros He [H1 H2] Hstep.
  destruct e as [f v|v|type file|k result|k|]; cbn [step] in Hstep;
    try discriminate.
  - destruct f; try discriminate; injection Hstep as <-; cbn; auto.
  - destruct (arr_includes DIFFICULTIES v); [|discriminate].
    injection Hstep as <-. cbn. auto.
  - destruct (nth_error (inFlight d) k) as [formData|]; [|discriminate].
    injection Hstep as <-. cbn [store].
    destruct (autoFill_photos formData (store d) (extractedData result))
      as [-> ->]. auto.
  - destruct (nth_error (inFlight d) k); [|discriminate].
    injection Hstep as <-. cbn. auto.
  - injection Hstep as <-. cbn. auto.
Qed.

(** Without a new upload no record can be created from a form that has no
    photo, such as the form at the start and after a reset: the OCR results
    that still arrive fill fields of the form, never its photos. *)
Theorem no_record_without_photo (o : Submit.Outside) (d d' : Dialog)
    (es : list Event) (ocrResults : Submit.OcrResults) :
  noPhoto (store d) -> forallb (fun e => negb (isUpload e)) es = true ->
  run d es = Some d' ->
  Submit.handleSubmit o (store d') ocrResults = None.
Proof.
  revert d. induction es as [|e es IH]; intros d Hno Hes Hrun;
    cbn [run] in Hrun.
  - injection Hrun as <-. destruct Hno as [H1 H2].
    unfold Submit.handleSubmit. rewrite H1, H2. reflexivity.
  - cbn [forallb] in Hes. apply andb_true_iff in Hes as [He Hes].
    destruct (step d e) as [d1|] eqn:Hstep; [|discriminate].
    apply (IH d1); auto.
    apply (step_keeps_noPhoto d d1 e); auto.
    destruct (isUpload e); [discriminate|reflexivity].
Qed.

(** The form was reset while an OCR call ran; its result fills fields of
    the form, and still nothing can be submitted. *)
Lemma no_record_without_photo_witness :
  option_map
    (fun d' => (patternCompany (store d'),
                Submit.handleSubmit sampleOutside (store d')
                  (Submit.mkOcr None None)))
    (run (mkDialog initialForm [initialForm])
       [OcrDone 0 (processOCR (str "Vogue 1234 Intermediate"));
        Typed FNotes (str "lined")])
  = Some (str "Vogue", None).
Proof.
  destruct (run (mkDialog initialForm [initialForm])
              [OcrDone 0 (processOCR (str "Vogue 1234 Intermediate"));
               Typed FNotes (str "lined")])
    as [d'|] eqn:Hrun; [|vm_compute in Hrun; discriminate].
  cbn [option_map]. f_equal.
  rewrite (no_record_without_photo sampleOutside
             (mkDialog initialForm [initialForm]) d'
             [OcrDone 0 (processOCR (str "Vogue 1234 Intermediate"));
              Typed FNotes (str "lined")]
             (Submit.mkOcr None None)
             (conj eq_refl eq_refl) eq_refl Hrun).
  f_equal. vm_compute in Hrun. injection Hrun as <-. reflexivity.
Defined.

(** A difficulty the extractor returns is a value of the form's selector,
    which the selector would accept, and normalizing it again gives it
    back. *)
Theorem extracted_difficulty_selectable (text v : jsstring) :
  extractDifficulty text = Some v ->
  In v DIFFICULTIES /\ normalizeDifficulty v = Some v
  /\ forall d, step d (Selected v)
               = Some (mkDialog (handleInputChange FDifficulty v (store d))
                                (inFlight d)).
Proof.
  intros H. unfold extractDifficulty in H.
  apply firstAccepted_Some in H as (i & p & _ & H & _).
  apply difficultyAttempt_Some in H as (m0 & _ & H).
  apply normalizeDifficulty_levels in H.
  assert (Hin : In v DIFFICULTIES) by exact H.
  split; [exact Hin|]. split.
  - cbn [map In] in H. destruct H as [<-|[<-|[<-|[<-|[]]]]]; reflexivity.
  - intros d. cbn [step]. apply arr_includes_In in Hin. rewrite Hin.
    reflexivity.
Qed.

Lemma extracted_difficulty_selectable_witness :
  In (str "Advanced") DIFFICULTIES
  /\ normalizeDifficulty (str "Advanced") = Some (str "Advanced")
  /\ forall d, step d (Selected (str "Advanced"))
               = Some (mkDialog
                         (handleInputChange FDifficulty (str "Advanced")
                            (store d))
                         (inFlight d)).
Proof.
  apply (extracted_difficulty_selectable (str "Skill Level: advanced sewers")).
  vm_compute; reflexivity.
Defined.
